(** * Export pipeline of marp-vscode: work files, config build, renderer call

    A shallow embedding of [src/marp-cli.ts] ([createWorkFile],
    [createConfigFile], [runMarpCli]), of [marpCoreOptionForCLI] from
    [src/option.ts] and of [doExport] from [src/commands/export.ts].

    The TypeScript code is asynchronous but single threaded; every [await]
    is modelled as sequencing in a state-and-exception monad.  A promise that
    is started and not awaited ([conf.cleanup()], [input.cleanup()]) has its
    effects performed at the call and its rejection dropped.

    What the program does not own is a parameter: the file system decides
    which writes and deletions fail, [nanoid] which ids are drawn,
    [themes.loadStyles] how each theme promise settles, the renderer how it
    exits, [workspace.getWorkspaceFolder] which folder a document has.

    The state carries a trace of events.  Writes, deletions, the renderer call
    and the UI calls are what the program does; [EvWorkFile] and [EvCleanup]
    are ghost entries that record where a [WorkFile] object is built and
    where its [cleanup()] is called, so that calls can be counted. *)

From Stdlib Require Import ZArith Lia Ascii.
From stdpp Require Import base strings gmap list pretty.

Set Warnings "-register-all".
Local Open Scope string_scope.
Local Open Scope Z_scope.
Local Open Scope list_scope.

(** ** Values of the host environment *)

(** [vscode.Uri]: only the members the code reads. *)
Record Uri := {
  scheme : string;
  uri_path : string;
  fsPath : string;
}.

Record TextDocument := {
  uri : Uri;
  isDirty : bool;
  getText : string;
}.

Record WorkspaceFolder := {
  folder_uri : Uri;
  folder_name : string;
}.

(** Values a JavaScript [throw] can carry here.  [CLIError] is the structured
    error class of the renderer package, [MarpCLIError] the class declared in
    [marp-cli.ts]; [JsErrorObj] is any other [Error] instance and [JsThrown] a
    thrown value that is not an [Error], given by its [toString()]. *)
Inductive JsError :=
| CLIError (errorCode : Z) (name message : string)
| MarpCLIError (message : string)
| JsErrorObj (name message : string)
| JsThrown (repr : string).

Global Instance JsError_eq_dec : EqDecision JsError.
Proof. solve_decision. Defined.

(** A JSON document, as [JSON.stringify] lays it out (members whose value is
    [undefined] or a function are left out by [JSON.stringify]). *)
Inductive Json :=
| JBool (b : bool)
| JString (s : string)
| JArray (items : list Json)
| JObject (members : list (string * Json)).

Fixpoint assoc (key : string) (members : list (string * Json)) : option Json :=
  match members with
  | [] => None
  | (k, v) :: rest => if bool_decide (k = key) then Some v else assoc key rest
  end.

(** [j[key]] *)
Definition json_member (key : string) (j : Json) : option Json :=
  match j with
  | JObject members => assoc key members
  | _ => None
  end.

(** What [fs.writeFile] puts in a file: a text, or the text of a JSON
    document. *)
Inductive FileContent :=
| Text (s : string)
| JsonText (j : Json).

(** Arguments received by the rest parameter of [runMarpCli]. *)
Inductive JsArg :=
| ArgStr (s : string)
| ArgArr (items : list string)
| ArgOpts (baseUrl : option string).

(** Result of the external renderer [marpCli(argv)]. *)
Inductive RendererOutcome :=
| Exit (code : Z)
| RendererThrows (e : JsError).

(** Settled state of one promise returned by [themes.loadStyles]. *)
Inductive Settled (A : Type) :=
| Fulfilled (a : A)
| Rejected (e : JsError).
Arguments Fulfilled {A} a.
Arguments Rejected {A} e.

(** [ThemeType]: the enum is declared in [themes.ts]; the code names the
    members [File] and [Remote], every other member is [OtherType]. *)
Inductive ThemeType := File | Remote | OtherType.

Record Theme := {
  theme_type : ThemeType;
  theme_path : string;
  css : string;
}.

(** ** Observable events and program state *)

Inductive Event :=
| EvWrite (p : string) (c : FileContent) (ok : bool)   (* fs.writeFile settled *)
| EvUnlink (p : string) (ok : bool)         (* fs.unlink settled *)
| EvWorkFile (p : string)                   (* a WorkFile object was built *)
| EvCleanup (p : string)                    (* its cleanup() was called *)
| EvProxyCreate (port : Z)
| EvProxyDispose (port : Z)
| EvMarpCli (argv : list JsArg) (chrome : option string)
| EvShowError (msg : string)
| EvOpenExternal (u : Uri).

Inductive ConsoleEntry :=
| LogInfo (msg : string)
| LogDebug (msg : string)
| LogError (e : JsError).

Record State := {
  fs : gmap string FileContent;          (* the file system *)
  env_CHROME_PATH : option string;       (* process.env.CHROME_PATH *)
  nanoid_calls : nat;                    (* how many ids were drawn *)
  console : list ConsoleEntry;
  trace : list Event;
}.

Definition set_fs (f : gmap string FileContent → gmap string FileContent) (s : State) : State :=
  {| fs := f (fs s); env_CHROME_PATH := env_CHROME_PATH s;
     nanoid_calls := nanoid_calls s; console := console s; trace := trace s |}.

Definition set_env (v : option string) (s : State) : State :=
  {| fs := fs s; env_CHROME_PATH := v;
     nanoid_calls := nanoid_calls s; console := console s; trace := trace s |}.

Definition bump_nanoid (s : State) : State :=
  {| fs := fs s; env_CHROME_PATH := env_CHROME_PATH s;
     nanoid_calls := S (nanoid_calls s); console := console s; trace := trace s |}.

Definition log (c : ConsoleEntry) (s : State) : State :=
  {| fs := fs s; env_CHROME_PATH := env_CHROME_PATH s;
     nanoid_calls := nanoid_calls s; console := console s ++ [c]; trace := trace s |}.

Definition emit (e : Event) (s : State) : State :=
  {| fs := fs s; env_CHROME_PATH := env_CHROME_PATH s;
     nanoid_calls := nanoid_calls s; console := console s; trace := trace s ++ [e] |}.

(** ** The monad: state passing with JavaScript exceptions *)

Inductive Res (A : Type) :=
| Ok (a : A)
| Throw (e : JsError).
Arguments Ok {A} a.
Arguments Throw {A} e.

Definition M (A : Type) : Type := State → Res A * State.

Definition ret {A} (a : A) : M A := λ s, (Ok a, s).

Definition throw {A} (e : JsError) : M A := λ s, (Throw e, s).

Definition bind {A B} (m : M A) (k : A → M B) : M B := λ s,
  match m s with
  | (Ok a, s') => k a s'
  | (Throw e, s') => (Throw e, s')
  end.

Definition modify (f : State → State) : M unit := λ s, (Ok tt, f s).

Declare Scope js_scope.
Delimit Scope js_scope with js.
Notation "'let!' x ':=' m 'in' k" := (bind m (λ x, k))
  (at level 10, x name, m at level 100, k at level 200) : js_scope.
Notation "m ';;' k" := (bind m (λ _, k))
  (at level 100, k at level 200, right associativity) : js_scope.
Local Open Scope js_scope.

(** [try { body } catch (e) { handler }] *)
Definition try_catch {A} (body : M A) (handler : JsError → M A) : M A := λ s,
  match body s with
  | (Ok a, s') => (Ok a, s')
  | (Throw e, s') => handler e s'
  end.

(** [try { body } finally { fin }]: [fin] always runs; when it throws, its
    exception replaces the outcome of [body]. *)
Definition try_finally {A} (body : M A) (fin : M unit) : M A := λ s,
  match body s with
  | (r, s') =>
    match fin s' with
    | (Ok _, s'') => (r, s'')
    | (Throw e, s'') => (Throw e, s'')
    end
  end.

(** A promise that is started and never awaited: a rejection is not seen
    by the caller.  The model runs the promise to its end at the call.  That
    is right for what is called and requested, and in which order: the async
    functions called this way ([cleanup]) make all their calls before their
    first [await].  It is early for the outcome of a deletion they request:
    in the program the deletion is pending when the caller goes on.  So the
    [fs] of a state after [not_awaited] is the file system once the pending
    deletions are through, not the one at that moment, and the same holds for
    the flag of an [EvUnlink] event. *)
Definition not_awaited {A} (m : M A) : M unit := λ s,
  (Ok tt, snd (m s)).

(** [Promise.all] over promises that are all already running: each one runs
    to its end, the result rejects with the first rejection.  The results
    are in the order of the list, as in the program.  The model also runs
    the promises in the order of the list, where the program runs each
    callback when its promise settles: the order of the events of two
    different promises is the model's own. *)
Fixpoint promise_all {A} (ms : list (M A)) : M (list A) := λ s,
  match ms with
  | [] => (Ok [], s)
  | m :: ms' =>
    match m s with
    | (r, s1) =>
      match promise_all ms' s1 with
      | (rs, s2) =>
        (match r, rs with
         | Ok a, Ok l => Ok (a :: l)
         | Throw e, _ => Throw e
         | Ok _, Throw e => Throw e
         end, s2)
      end
    end
  end.

(** ** The world outside the program *)

Record World := {
  (* Node's path and os modules *)
  path_join : string → string → string;
  path_dirname : string → string;
  path_extname : string → string;
  tmpdir : string;
  platform : string;
  (* nanoid(): the id drawn by the n-th call *)
  nanoid_gen : nat → string;
  (* the message of the TypeError of a call to a value that is no function,
     here the default import of nanoid; its text depends on how the module
     was compiled *)
  not_callable_message : string;
  (* fs: the error a write or a delete at a path fails with, if any *)
  writeFile_error : string → option JsError;
  unlink_error : string → option JsError;
  (* vscode.workspace *)
  getWorkspaceFolder : Uri → option WorkspaceFolder;
  preview_breaks : Uri → option bool;     (* markdown.preview.breaks *)
  (* marpConfiguration() *)
  cfg_chromePath : option string;
  cfg_enableHtml : option bool;
  cfg_enableExtensionAttrs : option bool;
  cfg_breaks : string;
  (* themes.loadStyles(root) *)
  loadStyles : option string → list (Settled Theme);
  (* the renderer package *)
  marpCli : list JsArg → RendererOutcome;
  NOT_FOUND_CHROMIUM : Z;
  (* createWorkspaceProxyServer: the bound port, or the bind error *)
  proxy_bind : WorkspaceFolder → Z + JsError;
}.

(** The [WorkFile] interface of [option.ts]. *)
Record WorkFile := {
  path : string;
  cleanup : M unit;
}.

Section Program.
Context (W : World).

(** *** Primitives *)

Definition ENOENT (syscall p : string) : JsError :=
  JsErrorObj "Error" ("ENOENT: no such file or directory, " +:+ syscall +:+ " '" +:+ p +:+ "'").

Definition promiseWriteFile (p : string) (c : FileContent) : M unit := λ s,
  match writeFile_error W p with
  | None => (Ok tt, emit (EvWrite p c true) (set_fs (insert p c) s))
  | Some e => (Throw e, emit (EvWrite p c false) s)
  end.

Definition promiseUnlink (p : string) : M unit := λ s,
  match unlink_error W p with
  | None =>
    match fs s !! p with
    | Some _ => (Ok tt, emit (EvUnlink p true) (set_fs (delete p) s))
    | None => (Throw (ENOENT "unlink" p), emit (EvUnlink p false) s)
    end
  | Some e => (Throw e, emit (EvUnlink p false) s)
  end.

Definition nanoid : M string := λ s,
  (Ok (nanoid_gen W (nanoid_calls s)), bump_nanoid s).

(** [nanoid()] in [option.ts].  That file has [import nanoid from 'nanoid'],
    the default import, where [marp-cli.ts] has the named import
    [import { nanoid } from 'nanoid'].  The package file asks for nanoid
    [^3.1.23], which has named exports only: the imported value is not a
    function, and the call throws a [TypeError] before it draws an id. *)
Definition nanoid_default_import : M string :=
  throw (JsErrorObj "TypeError" (not_callable_message W)).

Definition console_info (msg : string) : M unit := modify (log (LogInfo msg)).
Definition console_debug (msg : string) : M unit := modify (log (LogDebug msg)).
Definition console_error (e : JsError) : M unit := modify (log (LogError e)).

(** An object literal [{ path, cleanup }]; the event is ghost state that
    records that the work file now exists. *)
Definition new_WorkFile (p : string) (c : M unit) : M WorkFile :=
  modify (emit (EvWorkFile p));; ret {| path := p; cleanup := c |}.

(** A call [w.cleanup()]; the event records the call. *)
Definition call_cleanup (w : WorkFile) : M unit :=
  modify (emit (EvCleanup (path w)));; cleanup w.

(** *** marp-cli.ts: createWorkFile *)

Definition createCleanup (target : string) : M unit := promiseUnlink target.

Definition createWorkFile (doc : TextDocument) : M WorkFile :=
  if bool_decide (scheme (uri doc) = "file") && negb (isDirty doc) then
    new_WorkFile (fsPath (uri doc)) (ret tt)
  else
    let text := getText doc in
    let! id := nanoid in
    let tmpFileName := ".marp-vscode-tmp-" +:+ id in
    let sameDirTmpPath :=
      path_join W (path_dirname W (fsPath (uri doc))) tmpFileName in
    try_catch
      (promiseWriteFile sameDirTmpPath (Text text);;
       new_WorkFile sameDirTmpPath (createCleanup sameDirTmpPath))
      (λ _,
        let documentWorkspace := getWorkspaceFolder W (uri doc) in
        let lastResort :=
          let tmpPath := path_join W (tmpdir W) tmpFileName in
          promiseWriteFile tmpPath (Text text);;
          new_WorkFile tmpPath (createCleanup tmpPath) in
        match documentWorkspace with
        | Some folder =>
          if bool_decide (scheme (folder_uri folder) = "file") then
            let workspaceDir := fsPath (folder_uri folder) in
            let workspaceDirTmpPath := path_join W workspaceDir tmpFileName in
            try_catch
              (promiseWriteFile workspaceDirTmpPath (Text text);;
               new_WorkFile workspaceDirTmpPath (createCleanup workspaceDirTmpPath))
              (λ _, lastResort)
          else lastResort
        | None => lastResort
        end).

(** *** option.ts: marpCoreOptionForCLI *)

Record CliOpts := {
  allowLocalFiles : bool;
  html : option bool;
  extensionAttrs : option bool;
  options_markdown_breaks : bool;
  themeSet : list string;
  vscode_themeFiles : list WorkFile;
}.

(** [v || undefined] on a boolean setting *)
Definition or_undefined (v : option bool) : option bool :=
  match v with
  | Some true => Some true
  | _ => None
  end.

(** [!!v] *)
Definition truthy_bool (v : option bool) : bool :=
  match v with
  | Some b => b
  | None => false
  end.

Definition breaks (inheritedValue : bool) : bool :=
  if bool_decide (cfg_breaks W = "off") then false
  else if bool_decide (cfg_breaks W = "inherit") then inheritedValue
  else true.

(** One element of the array handed to [Promise.all]:
    [promise.then(async theme => ..., e => console.error(e))].  The second
    callback sees a rejection of [promise] only, not one of the first
    callback: the [TypeError] of [nanoid()] in the branch of a remote theme
    rejects the element, and with it [Promise.all]. *)
Definition resolveTheme (promise : Settled Theme) : M (option WorkFile) :=
  match promise with
  | Fulfilled theme =>
    match theme_type theme with
    | File =>
      let! w := new_WorkFile (theme_path theme) (ret tt) in
      ret (Some w)
    | Remote =>
      let! id := nanoid_default_import in
      let cssName := ".marp-vscode-cli-theme-" +:+ id +:+ ".css" in
      let tmp := path_join W (tmpdir W) cssName in
      promiseWriteFile tmp (Text (css theme));;
      let! w := new_WorkFile tmp (promiseUnlink tmp) in
      ret (Some w)
    | OtherType => ret None
    end
  | Rejected e => console_error e;; ret None
  end.

(** The argument of [themes.loadStyles]:
    [baseFolder ? Uri.parse(`file:${baseFolder}`) : undefined], given by the
    text that is parsed. *)
Definition stylesRoot (u : Uri) : option string :=
  let workspaceFolder := getWorkspaceFolder W u in
  let parentFolder :=
    if bool_decide (scheme u = "file") then Some (path_dirname W (fsPath u))
    else None in
  let baseFolder :=
    match workspaceFolder with
    | Some folder => Some (fsPath (folder_uri folder))
    | None => parentFolder
    end in
  match baseFolder with
  | Some b => if bool_decide (b = "") then None else Some ("file:" +:+ b)
  | None => None
  end.

Definition marpCoreOptionForCLI (doc : TextDocument) : M CliOpts :=
  let u := uri doc in
  let! settled := promise_all (resolveTheme <$> loadStyles W (stylesRoot u)) in
  let themeFiles := omap id settled in
  ret {| allowLocalFiles := true;
         html := or_undefined (cfg_enableHtml W);
         extensionAttrs := or_undefined (cfg_enableExtensionAttrs W);
         options_markdown_breaks := breaks (truthy_bool (preview_breaks W u));
         themeSet := path <$> themeFiles;
         vscode_themeFiles := themeFiles |}.

(** *** marp-cli.ts: createConfigFile *)

Definition optional_member (key : string) (v : option bool) : list (string * Json) :=
  match v with
  | Some b => [(key, JBool b)]
  | None => []
  end.

Definition JSON_stringify (o : CliOpts) : Json :=
  JObject
    ([("allowLocalFiles", JBool (allowLocalFiles o))]
     ++ optional_member "html" (html o)
     ++ optional_member "extensionAttrs" (extensionAttrs o)
     ++ [("options",
          JObject [("markdown",
                    JObject [("breaks", JBool (options_markdown_breaks o))])]);
         ("themeSet", JArray (JString <$> themeSet o));
         ("vscode",
          JObject [("themeFiles",
                    JArray ((λ w, JObject [("path", JString (path w))])
                              <$> vscode_themeFiles o))])]).

Definition config_cleanup (tmpPath : string) (themeFiles : list WorkFile) : M unit :=
  promise_all (promiseUnlink tmpPath :: (call_cleanup <$> themeFiles));;
  ret tt.

Definition createConfigFile (target : TextDocument) : M WorkFile :=
  let! id := nanoid in
  let tmpFileName := ".marp-vscode-cli-conf-" +:+ id +:+ ".json" in
  let tmpPath := path_join W (tmpdir W) tmpFileName in
  let! cliOpts := marpCoreOptionForCLI target in
  promiseWriteFile tmpPath (JsonText (JSON_stringify cliOpts));;
  new_WorkFile tmpPath (config_cleanup tmpPath (vscode_themeFiles cliOpts)).

(** *** marp-cli.ts: runMarpCli *)

(** [String(v)] for an element of [argv] *)
Definition arg_toString (a : JsArg) : string :=
  match a with
  | ArgStr s => s
  | ArgArr items => String.concat "," items
  | ArgOpts _ => "[object Object]"
  end.

(** [a || b] on values that are a string or [undefined] *)
Definition js_or (a b : option string) : option string :=
  match a with
  | Some "" => b
  | Some s => Some s
  | None => b
  end.

(** [process.env.CHROME_PATH = v]: Node stores the string conversion of the
    assigned value, so assigning [undefined] stores the text "undefined". *)
Definition assign_CHROME_PATH (v : option string) : M unit :=
  modify (set_env (Some (default "undefined" v))).

Definition call_marpCli (argv : list JsArg) : M Z := λ s,
  let s' := emit (EvMarpCli argv (env_CHROME_PATH s)) s in
  match marpCli W argv with
  | Exit code => (Ok code, s')
  | RendererThrows e => (Throw e, s')
  end.

Definition is_NOT_FOUND_CHROMIUM (e : JsError) : bool :=
  match e with
  | CLIError errorCode _ _ => bool_decide (errorCode = NOT_FOUND_CHROMIUM W)
  | _ => false
  end.

Definition chromium_hint : string :=
  if bool_decide (platform W = "linux")
  then " or [Chromium](https://www.chromium.org/)"
  else "".

Definition install_message : string :=
  "It requires to install [Google Chrome](https://www.google.com/chrome/)"
  +:+ chromium_hint +:+ " for exporting.".

Definition exit_code_message (exitCode : Z) : string :=
  "Marp CLI throwed unexpected error with exit code " +:+ pretty exitCode +:+ ".".

Definition runMarpCli (argv : list JsArg) : M unit :=
  console_info ("Execute Marp CLI: " +:+ String.concat " " (arg_toString <$> argv));;
  let! CHROME_PATH := (λ s, (Ok (env_CHROME_PATH s), s)) in
  let! exitCode :=
    try_finally
      (try_catch
         (assign_CHROME_PATH (js_or (cfg_chromePath W) CHROME_PATH);;
          call_marpCli argv)
         (λ e,
           console_error e;;
           if is_NOT_FOUND_CHROMIUM e
           then throw (MarpCLIError install_message)
           else throw e))
      (assign_CHROME_PATH CHROME_PATH) in
  if bool_decide (exitCode ≠ 0)
  then throw (MarpCLIError (exit_code_message exitCode))
  else ret tt.

(** *** commands/export.ts: doExport *)

Record WorkspaceProxyServer := {
  port : Z;
}.

Definition createWorkspaceProxyServer (folder : WorkspaceFolder) : M WorkspaceProxyServer :=
  match proxy_bind W folder with
  | inl p => modify (emit (EvProxyCreate p));; ret {| port := p |}
  | inr e => throw e
  end.

Definition dispose (server : WorkspaceProxyServer) : M unit :=
  modify (emit (EvProxyDispose (port server))).

Definition chromiumRequiredExtensions : list string :=
  ["pdf"] ++ ["pptx"] ++ ["png"] ++ ["jpg"; "jpeg"].

(** [s.replace(/^\./, '')] *)
Definition strip_leading_dot (s : string) : string :=
  match s with
  | String "."%char rest => rest
  | _ => s
  end.

Definition shouldProvideWorkspaceProxyServer (u : Uri) (document : TextDocument) : bool :=
  let ext := strip_leading_dot (path_extname W (uri_path u)) in
  if bool_decide (ext ∈ chromiumRequiredExtensions)
  then negb (bool_decide (scheme (uri document) ∈ ["file"; "untitled"]))
  else false.

(** The folder for which [doExport] calls [createWorkspaceProxyServer]. *)
Definition proxyWorkspaceFolder (u : Uri) (document : TextDocument) : option WorkspaceFolder :=
  if shouldProvideWorkspaceProxyServer u document
  then getWorkspaceFolder W (uri document)
  else None.

Definition failure_message (e : JsError) : string :=
  "Failure to export" +:+
  match e with
  | MarpCLIError m => ". " +:+ m
  | CLIError _ n m => ": [" +:+ n +:+ "] " +:+ m
  | JsErrorObj n m => ": [" +:+ n +:+ "] " +:+ m
  | JsThrown r => ". " +:+ r
  end.

Definition showErrorMessage (msg : string) : M unit := modify (emit (EvShowError msg)).
Definition openExternal (u : Uri) : M unit := modify (emit (EvOpenExternal u)).

(** The second argument [doExport] hands to [createConfigFile]. *)
Record ConfigFileExtra := {
  extra_allowLocalFiles : bool;
}.

(** A call that passes one argument more than the callee declares: the
    surplus argument is evaluated and dropped. *)
Definition call_with_surplus {A B X} (f : A → B) (a : A) (surplus : X) : B := f a.

Definition doExport (u : Uri) (document : TextDocument) : M unit :=
  let! proxyServer :=
    match proxyWorkspaceFolder u document with
    | Some workspaceFolder =>
      let! server := createWorkspaceProxyServer workspaceFolder in
      console_debug ("Proxy server for the workspace " +:+ folder_name workspaceFolder
                     +:+ " has created (port: " +:+ pretty (port server) +:+ ")");;
      ret (Some server)
    | None => ret None
    end in
  let baseUrl :=
    (λ server, "http://127.0.0.1:" +:+ pretty (port server) +:+ uri_path (uri document))
      <$> proxyServer in
  try_finally
    (let! input := createWorkFile document in
     try_finally
       (try_catch
          (let! conf :=
             call_with_surplus createConfigFile document
               {| extra_allowLocalFiles := negb (bool_decide (is_Some proxyServer)) |} in
           try_finally
             (runMarpCli [ArgArr ["-c"; path conf; path input; "-o"; fsPath u];
                          ArgOpts baseUrl];;
              openExternal u)
             (not_awaited (call_cleanup conf)))
          (λ e, showErrorMessage (failure_message e)))
       (not_awaited (call_cleanup input)))
    (match proxyServer with
     | Some server => dispose server
     | None => ret tt
     end).

End Program.

(** ** A concrete world, used to run the program on explicit inputs *)

Module Sample.

(** Splits a path at its last slash. *)
Fixpoint split_last_slash (p : string) : option (string * string) :=
  match p with
  | EmptyString => None
  | String c rest =>
    match split_last_slash rest with
    | Some (dir, base) => Some (String c dir, base)
    | None => if bool_decide (c = "/"%char) then Some ("", rest) else None
    end
  end.

Definition dirname (p : string) : string :=
  match split_last_slash p with
  | Some ("", _) => "/"
  | Some (dir, _) => dir
  | None => "."
  end.

(** The text from the last dot on, empty when there is none. *)
Fixpoint extname (p : string) : string :=
  match p with
  | EmptyString => ""
  | String c rest =>
    match extname rest with
    | EmptyString => if bool_decide (c = "."%char) then p else ""
    | e => e
    end
  end.

Definition join (a b : string) : string := a +:+ "/" +:+ b.

Definition id_of (n : nat) : string := "id" +:+ pretty n.

Definition EACCES (syscall p : string) : JsError :=
  JsErrorObj "Error" ("EACCES: permission denied, " +:+ syscall +:+ " '" +:+ p +:+ "'").

(** The system call fails exactly at the paths listed in [denied]. *)
Definition deny (syscall : string) (denied : list string) (p : string) : option JsError :=
  if bool_decide (p ∈ denied) then Some (EACCES syscall p) else None.

Definition world
    (readonly undeletable : list string)
    (folder : Uri → option WorkspaceFolder)
    (chromePath : option string)
    (os : string)
    (styles : list (Settled Theme))
    (renderer : RendererOutcome) : World :=
  {| path_join := join;
     path_dirname := dirname;
     path_extname := extname;
     tmpdir := "/tmp";
     platform := os;
     nanoid_gen := id_of;
     not_callable_message := "nanoid is not a function";
     writeFile_error := deny "open" readonly;
     unlink_error := deny "unlink" undeletable;
     getWorkspaceFolder := folder;
     preview_breaks := λ _, None;
     cfg_chromePath := chromePath;
     cfg_enableHtml := None;
     cfg_enableExtensionAttrs := None;
     cfg_breaks := "on";
     loadStyles := λ _, styles;
     marpCli := λ _, renderer;
     NOT_FOUND_CHROMIUM := 2;
     proxy_bind := λ _, inl 8192 |}.

Definition initial (chrome : option string) : State :=
  {| fs := ∅; env_CHROME_PATH := chrome; nanoid_calls := 0;
     console := []; trace := [] |}.

Definition file_uri (p : string) : Uri :=
  {| scheme := "file"; uri_path := p; fsPath := p |}.

Definition deck : TextDocument :=
  {| uri := file_uri "/work/slides/deck.md"; isDirty := true; getText := "# Title" |}.

Definition saved_deck : TextDocument :=
  {| uri := file_uri "/work/slides/deck.md"; isDirty := false; getText := "# Title" |}.

Definition work_folder : WorkspaceFolder :=
  {| folder_uri := file_uri "/work"; folder_name := "work" |}.

Definition untitled : TextDocument :=
  {| uri := {| scheme := "untitled"; uri_path := "Untitled-1"; fsPath := "Untitled-1" |};
     isDirty := true; getText := "# Draft" |}.

Definition virtual_deck : TextDocument :=
  {| uri := {| scheme := "vscode-vfs"; uri_path := "/repo/deck.md"; fsPath := "/repo/deck.md" |};
     isDirty := false; getText := "# Remote" |}.

Definition virtual_folder : WorkspaceFolder :=
  {| folder_uri := {| scheme := "vscode-vfs"; uri_path := "/repo"; fsPath := "/repo" |};
     folder_name := "repo" |}.

Definition remote_theme : Theme :=
  {| theme_type := Remote; theme_path := "https://example.com/a.css"; css := "/* @theme a */" |}.

Definition local_theme : Theme :=
  {| theme_type := File; theme_path := "/work/themes/b.css"; css := "/* @theme b */" |}.

End Sample.


(** ** The rest of option.ts: the preview options and their cache *)

(** The [MarpOptions] object built for the preview. *)
Record PreviewOptions := {
  container_tag : string;
  container_id : string;
  preview_html : option bool;
  preview_extensionAttrs : option bool;
  markdown_breaks : bool;
  minifyCSS : bool;
  script : bool;
}.

(** [marpCoreOptionForPreview(baseOption)]: the module variable
    [cachedPreviewOption] is passed in and out; [baseOption_breaks] is
    [baseOption.breaks].  The configuration is read from the world of the
    call, so that two calls can see two configurations. *)
Definition marpCoreOptionForPreview (W : World) (baseOption_breaks : option bool)
    (cachedPreviewOption : option PreviewOptions) : PreviewOptions * option PreviewOptions :=
  match cachedPreviewOption with
  | Some cached => (cached, Some cached)
  | None =>
    let fresh :=
      {| container_tag := "div";
         container_id := "marp-vscode";
         preview_html := or_undefined (cfg_enableHtml W);
         preview_extensionAttrs := or_undefined (cfg_enableExtensionAttrs W);
         markdown_breaks := breaks W (truthy_bool baseOption_breaks);
         minifyCSS := false;
         script := false |} in
    (fresh, Some fresh)
  end.

Definition clearMarpCoreOptionCache (cachedPreviewOption : option PreviewOptions)
    : option PreviewOptions :=
  None.

(** ** The rest of commands/export.ts: the save dialog and the command *)

(** [enum Types] *)
Inductive Types := html_type | pdf_type | pptx_type | png_type | jpeg_type.

(** The string value of a member of [Types]. *)
Definition type_name (t : Types) : string :=
  match t with
  | html_type => "html"
  | pdf_type => "pdf"
  | pptx_type => "pptx"
  | png_type => "png"
  | jpeg_type => "jpeg"
  end.

Definition extensions (t : Types) : list string :=
  match t with
  | html_type => ["html"]
  | pdf_type => ["pdf"]
  | pptx_type => ["pptx"]
  | png_type => ["png"]
  | jpeg_type => ["jpg"; "jpeg"]
  end.

Definition descriptions (t : Types) : string :=
  match t with
  | html_type => "HTML slide deck"
  | pdf_type => "PDF slide deck"
  | pptx_type => "PowerPoint document"
  | png_type => "PNG image (first slide only)"
  | jpeg_type => "JPEG image (first slide only)"
  end.

Definition ITEM_CONTINUE_TO_EXPORT : string := "Continue to export...".

(** [Object.keys(extensions)]: the keys in the order they were written. *)
Definition baseTypes : list string :=
  type_name <$> [html_type; pdf_type; pptx_type; png_type; jpeg_type].

(** The member of [Types] a key of [extensions] stands for; [None] is the
    case [!baseTypes.includes(t)]. *)
Definition type_of_name (t : string) : option Types :=
  if bool_decide (t = "html") then Some html_type
  else if bool_decide (t = "pdf") then Some pdf_type
  else if bool_decide (t = "pptx") then Some pptx_type
  else if bool_decide (t = "png") then Some png_type
  else if bool_decide (t = "jpeg") then Some jpeg_type
  else None.

(** [[...new Set(items)]]: the items without repetitions, each at the place
    of its first occurrence. *)
Fixpoint set_spread_from (seen items : list string) : list string :=
  match items with
  | [] => []
  | x :: rest =>
    if bool_decide (x ∈ seen) then set_spread_from seen rest
    else x :: set_spread_from (x :: seen) rest
  end.

Definition set_spread (items : list string) : list string :=
  set_spread_from [] items.

(** [f[key] = value] on an object used as a map: a present key keeps its
    place and gets the value, a new key goes last. *)
Fixpoint object_assign (key : string) (value : list string)
    (f : list (string * list string)) : list (string * list string) :=
  match f with
  | [] => [(key, value)]
  | (k, v) :: rest =>
    if bool_decide (k = key) then (k, value) :: rest
    else (k, v) :: object_assign key value rest
  end.

(** [s.slice(0, end)], with the string taken as its sequence of code
    units: a negative [end] counts from the end of the string. *)
Definition slice_from_0 (s : string) (end_ : Z) : string :=
  let len := Z.of_nat (String.length s) in
  let stop := if bool_decide (end_ < 0) then Z.max (len + end_) 0 else Z.min end_ len in
  String.substring 0 (Z.to_nat stop) s.

(** The options handed to [window.showSaveDialog]; [defaultUri] is given by
    the path passed to [Uri.file]. *)
Record SaveDialogOptions := {
  defaultUri : string;
  filters : list (string * list string);
  saveLabel : string;
}.

(** [window.activeTextEditor]: the document and its [languageId]. *)
Record TextEditor := {
  editor_document : TextDocument;
  languageId : string;
}.

(** What the commands show to the user, besides the calls of [doExport]. *)
Inductive UiEvent :=
| UiSaveDialog (options : SaveDialogOptions)
| UiProgress (title : string)
| UiWarning (message : string) (items : list string).

(** The editor window and the user in front of it. *)
Record Window := {
  cfg_exportType : string;
  showSaveDialog : SaveDialogOptions → option Uri;
  activeTextEditor : option TextEditor;
  showWarningMessage : string → list string → option string;
}.

(** Commands run on the program state together with the log of what was
    shown. *)
Definition Cmd (A : Type) : Type :=
  State * list UiEvent → Res A * (State * list UiEvent).

Definition cmd_ret {A} (a : A) : Cmd A := λ st, (Ok a, st).

Definition cmd_bind {A B} (c : Cmd A) (k : A → Cmd B) : Cmd B := λ st,
  match c st with
  | (Ok a, st') => k a st'
  | (Throw e, st') => (Throw e, st')
  end.

Definition show (ev : UiEvent) : Cmd unit := λ st,
  (Ok tt, (fst st, snd st ++ [ev])).

Definition lift {A} (m : M A) : Cmd A := λ st,
  match m (fst st) with
  | (r, s') => (r, (s', snd st))
  end.

Section Commands.
Context (W : World) (H : Window).

Definition save_filters (defaultType : string) : list (string * list string) :=
  let types := set_spread (defaultType :: baseTypes) in
  fold_left
    (λ f t,
      match type_of_name t with
      | Some ty => object_assign (descriptions ty) (extensions ty) f
      | None => f
      end)
    types [].

Definition save_defaultUri (fsPath : string) : string :=
  slice_from_0 fsPath (- Z.of_nat (String.length (path_extname W fsPath))).

Definition saveDialog (document : TextDocument) : Cmd unit :=
  let fsPath := fsPath (uri document) in
  let defaultType := cfg_exportType H in
  let options :=
    {| defaultUri := save_defaultUri fsPath;
       filters := save_filters defaultType;
       saveLabel := "Export" |} in
  cmd_bind (show (UiSaveDialog options)) (λ _,
  match showSaveDialog H options with
  | Some saveURI =>
    cmd_bind
      (show (UiProgress ("Exporting Marp slide deck to " +:+ uri_path saveURI +:+ "...")))
      (λ _, lift (doExport W saveURI document))
  | None => cmd_ret tt
  end).

Definition exportCommand : Cmd unit :=
  match activeTextEditor H with
  | Some activeEditor =>
    if bool_decide (languageId activeEditor = "markdown") then
      saveDialog (editor_document activeEditor)
    else
      let message := "A current document is not Markdown document." in
      cmd_bind (show (UiWarning message [ITEM_CONTINUE_TO_EXPORT])) (λ _,
      let acted := showWarningMessage H message [ITEM_CONTINUE_TO_EXPORT] in
      if bool_decide (acted = Some ITEM_CONTINUE_TO_EXPORT) then
        saveDialog (editor_document activeEditor)
      else cmd_ret tt)
  | None => cmd_ret tt
  end.

End Commands.

(** ** A concrete window *)

Module SampleWindow.

(** A window whose active editor shows [document] in language [language];
    the user answers the warning with [answer] and the save dialog with
    [target]. *)
Definition window (document : TextDocument) (language : string)
    (answer : option string) (target : option Uri) : Window :=
  {| cfg_exportType := "pdf";
     showSaveDialog := λ _, target;
     activeTextEditor := Some {| editor_document := document; languageId := language |};
     showWarningMessage := λ _ _, answer |}.

End SampleWindow.
(** ** Properties of the work files *)

(** A release that does nothing. *)
Definition noop_release (w : WorkFile) : Prop :=
  ∀ t, cleanup w t = (Ok tt, t).

(** A release that deletes the file [p] and touches nothing else. *)
Definition release_deletes (W : World) (w : WorkFile) (p : string) : Prop :=
  ∀ t, unlink_error W p = None → is_Some (fs t !! p) →
    cleanup w t = (Ok tt, emit (EvUnlink p true) (set_fs (delete p) t)).

(** The places [createWorkFile] may write to, in the order it tries them. *)
Definition fallback_locations (W : World) (doc : TextDocument) (name : string) : list string :=
  [path_join W (path_dirname W (fsPath (uri doc))) name]
  ++ match getWorkspaceFolder W (uri doc) with
     | Some folder =>
       if bool_decide (scheme (folder_uri folder) = "file")
       then [path_join W (fsPath (folder_uri folder)) name]
       else []
     | None => []
     end
  ++ [path_join W (tmpdir W) name].


(** Whether the text [needle] occurs in [hay]. *)
Definition mentions (needle hay : string) : bool :=
  match String.index 0 needle hay with
  | Some _ => true
  | None => false
  end.

(** The state in which the renderer runs during [runMarpCli argv]. *)
Definition at_call (W : World) (argv : list JsArg) (s : State) : State :=
  let override := default "undefined" (js_or (cfg_chromePath W) (env_CHROME_PATH s)) in
  emit (EvMarpCli argv (Some override))
    (set_env (Some override)
       (log (LogInfo ("Execute Marp CLI: " +:+ String.concat " " (arg_toString <$> argv))) s)).

(** ** A small program logic over the event trace *)

(** [emits P R m]: from every state, [m] only appends events that satisfy [P]
    to the trace, and a value it returns satisfies [R]. *)
Definition emits {A} (P : Event → Prop) (R : A → Prop) (m : M A) : Prop :=
  ∀ s, ∃ t, trace (snd (m s)) = trace s ++ t
            ∧ Forall P t
            ∧ ∀ a, fst (m s) = Ok a → R a.

(** The events of an export once the proxy server has been decided: file
    writes of a document text or theme, writes of a serialized config whose
    [allowLocalFiles] is [true], deletions, work file bookkeeping, the
    renderer call, the two UI calls and the disposal of the proxy server. *)
Inductive pipeline_event : Event → Prop :=
| pe_write_text p text ok : pipeline_event (EvWrite p (Text text) ok)
| pe_write_config p o ok :
    allowLocalFiles o = true →
    pipeline_event (EvWrite p (JsonText (JSON_stringify o)) ok)
| pe_unlink p ok : pipeline_event (EvUnlink p ok)
| pe_work_file p : pipeline_event (EvWorkFile p)
| pe_cleanup p : pipeline_event (EvCleanup p)
| pe_marp_cli argv chrome : pipeline_event (EvMarpCli argv chrome)
| pe_show_error msg : pipeline_event (EvShowError msg)
| pe_open_external u : pipeline_event (EvOpenExternal u)
| pe_proxy_dispose port : pipeline_event (EvProxyDispose port).

(** A work file whose cleanup stays within the pipeline events. *)
Definition tame (w : WorkFile) : Prop :=
  emits pipeline_event (λ _, True) (cleanup w).

(** What [doExport] appends to the trace before it materializes the
    document: the creation of the proxy server, when it asks for one and the
    server can bind. *)
Definition proxy_events (W : World) (u : Uri) (document : TextDocument) : list Event :=
  match proxyWorkspaceFolder W u document with
  | Some folder =>
    match proxy_bind W folder with
    | inl port => [EvProxyCreate port]
    | inr _ => []
    end
  | None => []
  end.

Definition is_proxy_create (ev : Event) : bool :=
  match ev with
  | EvProxyCreate _ => true
  | _ => false
  end.

(** Whether a proxy server was created in the course of the events [t]. *)
Definition proxy_created (t : list Event) : bool := existsb is_proxy_create t.

(** The three conditions for a proxy server in the words of the
    specification: (a) a target extension that needs the browser, (b) a
    document that is not backed by a real file, which counts untitled
    documents in, (c) a workspace folder that resolves. *)
Definition proxy_condition_as_specified (W : World) (u : Uri) (document : TextDocument) : Prop :=
  strip_leading_dot (path_extname W (uri_path u)) ∈ ["pdf"; "pptx"; "png"; "jpg"; "jpeg"]
  ∧ scheme (uri document) ≠ "file"
  ∧ is_Some (getWorkspaceFolder W (uri document)).

(** The path of the config file when [createConfigFile] starts in [s]. *)
Definition config_path (W : World) (s : State) : string :=
  path_join W (tmpdir W)
    (".marp-vscode-cli-conf-" +:+ nanoid_gen W (nanoid_calls s) +:+ ".json").

(** ** Theme resolution *)

(** The themes of type [File] among the promises that fulfilled, in the
    order of the promises. *)
Fixpoint local_themes (promises : list (Settled Theme)) : list Theme :=
  match promises with
  | [] => []
  | Fulfilled theme :: rest =>
    match theme_type theme with
    | File => theme :: local_themes rest
    | _ => local_themes rest
    end
  | Rejected _ :: rest => local_themes rest
  end.

(** The errors of the promises that rejected, in order. *)
Fixpoint rejections (promises : list (Settled Theme)) : list JsError :=
  match promises with
  | [] => []
  | Fulfilled _ :: rest => rejections rest
  | Rejected e :: rest => e :: rejections rest
  end.

(** A promise that fulfilled with a theme of type [Remote]. *)
Definition remote_fulfilled (promise : Settled Theme) : bool :=
  match promise with
  | Fulfilled theme =>
    match theme_type theme with
    | Remote => true
    | _ => false
    end
  | Rejected _ => false
  end.

(** The error of the call [nanoid()] in [option.ts]. *)
Definition not_callable (W : World) : JsError :=
  JsErrorObj "TypeError" (not_callable_message W).

(** ** Cleanup of the config file *)

(** The work files whose [cleanup()] was called in the course of [t], in
    the order of the calls. *)
Definition cleanup_calls (t : list Event) : list string :=
  omap (λ ev, match ev with EvCleanup p => Some p | _ => None end) t.

(** The work files that were built in the course of [t]. *)
Definition work_files (t : list Event) : list string :=
  omap (λ ev, match ev with EvWorkFile p => Some p | _ => None end) t.

(** The proxy servers disposed of in the course of [t]. *)
Definition proxy_disposals (t : list Event) : list Z :=
  omap (λ ev, match ev with EvProxyDispose p => Some p | _ => None end) t.

(** The proxy servers created in the course of [t]. *)
Definition proxy_creations (t : list Event) : list Z :=
  omap (λ ev, match ev with EvProxyCreate p => Some p | _ => None end) t.

(** A work file whose cleanup deletes the file at its own path. *)
Definition owns_file (W : World) (w : WorkFile) : Prop :=
  ∀ t, cleanup w t = promiseUnlink W (path w) t.

(** ** Notions used for the save dialog and the command *)

(** The five filters of the save dialog in the order of [Types]. *)
Definition base_filters : list (string * list string) :=
  (λ ty, (descriptions ty, extensions ty))
    <$> [html_type; pdf_type; pptx_type; png_type; jpeg_type].

(** What a command has shown, from the log [before] to the log [after]. *)
Definition shown (before after : list UiEvent) : list UiEvent :=
  drop (length before) after.

Definition is_save_dialog (ev : UiEvent) : bool :=
  match ev with
  | UiSaveDialog _ => true
  | _ => false
  end.

Definition is_warning (ev : UiEvent) : bool :=
  match ev with
  | UiWarning _ _ => true
  | _ => false
  end.

(** The options [saveDialog] hands to [window.showSaveDialog] for a
    document. *)
Definition save_options (W : World) (H : Window) (document : TextDocument) : SaveDialogOptions :=
  {| defaultUri := save_defaultUri W (fsPath (uri document));
     filters := save_filters (cfg_exportType H);
     saveLabel := "Export" |}.

(** Whether [exportCommand] goes on to the save dialog: there is an active
    editor, and its document is Markdown or the user chose to continue. *)
Definition export_requested (H : Window) (editor : TextEditor) : Prop :=
  activeTextEditor H = Some editor
  ∧ (languageId editor = "markdown"
     ∨ showWarningMessage H "A current document is not Markdown document."
         ["Continue to export..."] = Some "Continue to export...").

(** ** The outline of an export *)

Definition is_file_event (ev : Event) : bool :=
  match ev with
  | EvWrite _ _ _ | EvUnlink _ _ => true
  | _ => false
  end.

(** The events of [t] other than the single file operations: what was
    acquired, released, run and shown, in the order it happened. *)
Fixpoint outline (t : list Event) : list Event :=
  match t with
  | [] => []
  | ev :: rest => if is_file_event ev then outline rest else ev :: outline rest
  end.

(** The arguments [doExport] passes to [runMarpCli]. *)
Definition export_argv (u : Uri) (conf input : string) (baseUrl : option string) : list JsArg :=
  [ArgArr ["-c"; conf; input; "-o"; fsPath u]; ArgOpts baseUrl].

(** The error [runMarpCli argv] throws, if any; it depends on the renderer
    only. *)
Definition runMarpCli_error (W : World) (argv : list JsArg) : option JsError :=
  match marpCli W argv with
  | Exit code =>
    if bool_decide (code ≠ 0) then Some (MarpCLIError (exit_code_message code)) else None
  | RendererThrows e =>
    Some (if is_NOT_FOUND_CHROMIUM W e then MarpCLIError (install_message W) else e)
  end.

(** The base URL of a proxy server on [port] for a document. *)
Definition proxy_baseUrl (document : TextDocument) (port : Z) : string :=
  "http://127.0.0.1:" +:+ pretty port +:+ uri_path (uri document).

(** The four ways the part of [doExport] inside its outer [try] can go, with
    the result and the outline of each: the document cannot be materialized;
    the config build throws; the renderer succeeds; the renderer fails. *)
Inductive inner_outline (W : World) (u : Uri) (document : TextDocument) (s : State)
    (baseUrl : option string) : Res unit → list Event → Prop :=
| io_not_materialized e :
    fst (createWorkFile W document s) = Throw e →
    inner_outline W u document s baseUrl (Throw e) []
| io_config_failed input built e :
    fst (createWorkFile W document s) = Ok input →
    inner_outline W u document s baseUrl (Ok tt)
      ([EvWorkFile (path input)] ++ (EvWorkFile <$> built)
       ++ [EvShowError (failure_message e); EvCleanup (path input)])
| io_exported input themes conf chrome :
    fst (createWorkFile W document s) = Ok input →
    runMarpCli_error W (export_argv u conf (path input) baseUrl) = None →
    inner_outline W u document s baseUrl (Ok tt)
      ([EvWorkFile (path input)] ++ (EvWorkFile <$> themes)
       ++ [EvWorkFile conf;
           EvMarpCli (export_argv u conf (path input) baseUrl) chrome;
           EvOpenExternal u;
           EvCleanup conf]
       ++ (EvCleanup <$> themes) ++ [EvCleanup (path input)])
| io_render_failed input themes conf chrome e :
    fst (createWorkFile W document s) = Ok input →
    runMarpCli_error W (export_argv u conf (path input) baseUrl) = Some e →
    inner_outline W u document s baseUrl (Ok tt)
      ([EvWorkFile (path input)] ++ (EvWorkFile <$> themes)
       ++ [EvWorkFile conf;
           EvMarpCli (export_argv u conf (path input) baseUrl) chrome;
           EvCleanup conf]
       ++ (EvCleanup <$> themes)
       ++ [EvShowError (failure_message e); EvCleanup (path input)]).

(** The ways a whole [doExport] can go: the proxy server cannot bind; a
    proxy server brackets the inner part; there is no proxy server. *)
Inductive export_outline (W : World) (u : Uri) (document : TextDocument) (s : State)
    : Res unit → list Event → Prop :=
| eo_bind_failed folder e :
    proxyWorkspaceFolder W u document = Some folder →
    proxy_bind W folder = inr e →
    export_outline W u document s (Throw e) []
| eo_proxied folder port r inner :
    proxyWorkspaceFolder W u document = Some folder →
    proxy_bind W folder = inl port →
    inner_outline W u document s (Some (proxy_baseUrl document port)) r inner →
    export_outline W u document s r
      ([EvProxyCreate port] ++ inner ++ [EvProxyDispose port])
| eo_direct r inner :
    proxyWorkspaceFolder W u document = None →
    inner_outline W u document s None r inner →
    export_outline W u document s r inner.

(** The targets opened with [env.openExternal] in the course of [t]. *)
Definition opened (t : list Event) : list Uri :=
  omap (λ ev, match ev with EvOpenExternal u => Some u | _ => None end) t.

(** The messages shown with [window.showErrorMessage] in the course of [t]. *)
Definition shown_errors (t : list Event) : list string :=
  omap (λ ev, match ev with EvShowError msg => Some msg | _ => None end) t.

(** The argument lists of the renderer calls in the course of [t]. *)
Definition renderer_calls (t : list Event) : list (list JsArg) :=
  omap (λ ev, match ev with EvMarpCli argv _ => Some argv | _ => None end) t.

Definition is_renderer_call (ev : Event) : bool :=
  match ev with
  | EvMarpCli _ _ => true
  | _ => false
  end.

(** What an export does to files, and when the renderer runs: a write that
    succeeded, the call of the renderer, a request to delete a file (whatever
    comes of it). *)
Inductive FileStep :=
| Wrote (p : string)
| Rendered
| Unlinking (p : string).

Definition file_step (ev : Event) : option FileStep :=
  match ev with
  | EvWrite p _ true => Some (Wrote p)
  | EvMarpCli _ _ => Some Rendered
  | EvUnlink p _ => Some (Unlinking p)
  | _ => None
  end.

(** The file steps in the course of [t], in order. *)
Definition file_steps (t : list Event) : list FileStep := omap file_step t.
Section WorkFileProofs.
Context (W : World).

Lemma promiseUnlink_present p t :
  unlink_error W p = None → is_Some (fs t !! p) →
  promiseUnlink W p t = (Ok tt, emit (EvUnlink p true) (set_fs (delete p) t)).
Proof.
  intros Hperm [c Hc]. unfold promiseUnlink. by rewrite Hperm, Hc.
Qed.

(** *** Running the monad one step *)

Lemma bind_ok {A B} (m : M A) (k : A → M B) s a s' :
  m s = (Ok a, s') → bind m k s = k a s'.
Proof. unfold bind. by intros ->. Qed.

Lemma bind_throw {A B} (m : M A) (k : A → M B) s e s' :
  m s = (Throw e, s') → bind m k s = (Throw e, s').
Proof. unfold bind. by intros ->. Qed.

Lemma try_catch_ok {A} (m : M A) h s a s' :
  m s = (Ok a, s') → try_catch m h s = (Ok a, s').
Proof. unfold try_catch. by intros ->. Qed.

Lemma try_catch_throw {A} (m : M A) h s e s' :
  m s = (Throw e, s') → try_catch m h s = h e s'.
Proof. unfold try_catch. by intros ->. Qed.

(** A write followed by the construction of its work file. *)
Lemma write_step_ok p c k s :
  writeFile_error W p = None →
  (promiseWriteFile W p c;; new_WorkFile p k) s
  = (Ok {| path := p; cleanup := k |},
     emit (EvWorkFile p) (emit (EvWrite p c true) (set_fs (insert p c) s))).
Proof.
  intros Hw. unfold bind, promiseWriteFile, new_WorkFile, modify, ret.
  by rewrite Hw.
Qed.

Lemma write_step_fail p c k s e :
  writeFile_error W p = Some e →
  (promiseWriteFile W p c;; new_WorkFile p k) s
  = (Throw e, emit (EvWrite p c false) s).
Proof.
  intros Hw. unfold bind, promiseWriteFile. by rewrite Hw.
Qed.

(** C5. A document with scheme [file] that is not dirty is handed to the
    renderer as it is: [createWorkFile] returns its own [fsPath], writes and
    deletes nothing, and the returned cleanup is a no-op on every state. *)
Theorem createWorkFile_real_file doc s :
  scheme (uri doc) = "file" → isDirty doc = false →
  ∃ w, createWorkFile W doc s = (Ok w, emit (EvWorkFile (fsPath (uri doc))) s)
       ∧ path w = fsPath (uri doc)
       ∧ fs (snd (createWorkFile W doc s)) = fs s
       ∧ noop_release w.
Proof.
  intros Hscheme Hclean. unfold createWorkFile.
  rewrite Hscheme, Hclean. simpl.
  eexists. split; [reflexivity|]. by repeat split.
Qed.

(** C4. A dirty document, or one whose scheme is not [file], is written under
    one name, built from a fresh draw of [nanoid], to the first location that accepts the write, in the order
    document directory, workspace root (only for a workspace folder with scheme
    [file]), OS temp directory.  Every location before the chosen one was tried
    once and failed without a log entry; when the last location (the OS temp
    directory) fails too, its error is thrown.  The cleanup of the returned
    work file deletes the written file and nothing else. *)
Theorem createWorkFile_fallback_chain doc s :
  ¬ (scheme (uri doc) = "file" ∧ isDirty doc = false) →
  let name := ".marp-vscode-tmp-" +:+ nanoid_gen W (nanoid_calls s) in
  let text := Text (getText doc) in
  ∃ failed rest,
    fallback_locations W doc name = failed ++ rest
    ∧ Forall (λ p, is_Some (writeFile_error W p)) failed
    ∧ match rest with
      | p :: _ =>
        writeFile_error W p = None
        ∧ ∃ w s', createWorkFile W doc s = (Ok w, s')
            ∧ path w = p
            ∧ nanoid_calls s' = S (nanoid_calls s)
            ∧ fs s' = <[p := text]> (fs s)
            ∧ trace s' = trace s ++ ((λ q, EvWrite q text false) <$> failed)
                                 ++ [EvWrite p text true; EvWorkFile p]
            ∧ console s' = console s
            ∧ release_deletes W w p
      | [] =>
        ∃ e s', createWorkFile W doc s = (Throw e, s')
            ∧ writeFile_error W (path_join W (tmpdir W) name) = Some e
            ∧ fs s' = fs s
            ∧ trace s' = trace s ++ ((λ q, EvWrite q text false) <$> failed)
            ∧ console s' = console s
      end.
Proof.
  intros Hcopy name text.
  assert (Hguard : bool_decide (scheme (uri doc) = "file") && negb (isDirty doc) = false).
  { destruct (bool_decide (scheme (uri doc) = "file")) eqn:Hs; [|done].
    destruct (isDirty doc) eqn:Hd; [done|].
    exfalso. apply Hcopy. split; [by apply bool_decide_eq_true in Hs|done]. }
  unfold createWorkFile, fallback_locations. rewrite Hguard.
  erewrite bind_ok; [|reflexivity]. simpl nanoid_calls. fold name. fold text.
  set (p1 := path_join W (path_dirname W (fsPath (uri doc))) name).
  set (p3 := path_join W (tmpdir W) name).
  set (s0 := bump_nanoid s).
  destruct (writeFile_error W p1) as [e1|] eqn:H1.
  2:{ exists [], (p1 :: match getWorkspaceFolder W (uri doc) with
                       | Some folder =>
                         if bool_decide (scheme (folder_uri folder) = "file")
                         then [path_join W (fsPath (folder_uri folder)) name] else []
                       | None => [] end ++ [p3]).
      split; [done|]. split; [constructor|]. split; [done|].
      erewrite try_catch_ok; [|by apply write_step_ok].
      eexists _, _. split; [reflexivity|]. simpl.
      repeat split; try done; [by rewrite <- app_assoc|].
      intros t Hperm Hin. by apply promiseUnlink_present. }
  erewrite try_catch_throw; [|by apply write_step_fail]. cbv beta.
  assert (Hlast : ∀ s1 pre,
    Forall (λ p, is_Some (writeFile_error W p)) pre →
    trace s1 = trace s ++ ((λ q, EvWrite q text false) <$> pre) →
    fs s1 = fs s → console s1 = console s → nanoid_calls s1 = S (nanoid_calls s) →
    ∃ failed rest, pre ++ [p3] = failed ++ rest
      ∧ Forall (λ p, is_Some (writeFile_error W p)) failed
      ∧ match rest with
        | p :: _ =>
          writeFile_error W p = None
          ∧ ∃ w s',
              (promiseWriteFile W p3 text;; new_WorkFile p3 (createCleanup W p3)) s1
              = (Ok w, s')
              ∧ path w = p
              ∧ nanoid_calls s' = S (nanoid_calls s)
              ∧ fs s' = <[p := text]> (fs s)
              ∧ trace s' = trace s ++ ((λ q, EvWrite q text false) <$> failed)
                                   ++ [EvWrite p text true; EvWorkFile p]
              ∧ console s' = console s
              ∧ release_deletes W w p
        | [] =>
          ∃ e s',
              (promiseWriteFile W p3 text;; new_WorkFile p3 (createCleanup W p3)) s1
              = (Throw e, s')
              ∧ writeFile_error W p3 = Some e
              ∧ fs s' = fs s
              ∧ trace s' = trace s ++ ((λ q, EvWrite q text false) <$> failed)
              ∧ console s' = console s
        end).
  { intros s1 pre Hpre Htr Hfs Hco Hid.
    destruct (writeFile_error W p3) as [e3|] eqn:H3.
    - exists (pre ++ [p3]), []. split; [by rewrite app_nil_r|].
      split; [apply Forall_app; split; [done|]; constructor; [by rewrite H3|constructor]|].
      erewrite write_step_fail; [|done].
      eexists _, _. split; [reflexivity|]. simpl.
      repeat split; try done.
      by rewrite Htr, fmap_app, <- app_assoc.
    - exists pre, [p3]. split; [done|]. split; [done|]. split; [done|].
      erewrite write_step_ok; [|done].
      eexists _, _. split; [reflexivity|]. simpl.
      repeat split; try done.
      + by rewrite Hfs.
      + rewrite Htr. by rewrite <- !app_assoc.
      + intros t Hperm Hin. by apply promiseUnlink_present. }
  destruct (getWorkspaceFolder W (uri doc)) as [folder|] eqn:Hf.
  2:{ simpl. apply (Hlast _ [p1]); simpl; try done.
      constructor; [by rewrite H1|constructor]. }
  destruct (bool_decide (scheme (folder_uri folder) = "file")) eqn:Hfs.
  2:{ simpl. apply (Hlast _ [p1]); simpl; try done.
      constructor; [by rewrite H1|constructor]. }
  set (p2 := path_join W (fsPath (folder_uri folder)) name).
  destruct (writeFile_error W p2) as [e2|] eqn:H2.
  - erewrite try_catch_throw; [|by apply write_step_fail]. cbv beta.
    apply (Hlast _ [p1; p2]); simpl; try done.
    + constructor; [by rewrite H1|]. constructor; [by rewrite H2|constructor].
    + by rewrite <- app_assoc.
  - exists [p1], [p2; p3]. split; [done|].
    split; [constructor; [by rewrite H1|constructor]|]. split; [done|].
    erewrite try_catch_ok; [|by apply write_step_ok].
    eexists _, _. split; [reflexivity|]. simpl.
    repeat split; try done.
    + by rewrite <- !app_assoc.
    + intros t Hperm Hin. by apply promiseUnlink_present.
Qed.

End WorkFileProofs.

Lemma createWorkFile_real_file_witness :
  scheme (uri Sample.saved_deck) = "file" ∧ isDirty Sample.saved_deck = false ∧
  ∃ w, createWorkFile (Sample.world [] [] (λ _, None) None "linux" [] (Exit 0))
         Sample.saved_deck (Sample.initial None)
       = (Ok w, emit (EvWorkFile "/work/slides/deck.md") (Sample.initial None))
       ∧ path w = "/work/slides/deck.md"
       ∧ fs (snd (createWorkFile (Sample.world [] [] (λ _, None) None "linux" [] (Exit 0))
                    Sample.saved_deck (Sample.initial None))) = ∅
       ∧ noop_release w.
Proof.
  split; [reflexivity|]. split; [reflexivity|].
  apply createWorkFile_real_file; reflexivity.
Defined.


Lemma createWorkFile_fallback_chain_witness :
  let W0 := Sample.world ["/work/slides/.marp-vscode-tmp-id0"; "/work/.marp-vscode-tmp-id0"] []
              (λ _, Some Sample.work_folder) None "linux" [] (Exit 0) in
  let text := Text "# Title" in
  ¬ (scheme (uri Sample.deck) = "file" ∧ isDirty Sample.deck = false)
  ∧ ∃ failed rest : list string,
      fallback_locations W0 Sample.deck ".marp-vscode-tmp-id0" = failed ++ rest
      ∧ Forall (λ p, is_Some (writeFile_error W0 p)) failed
      ∧ match rest with
        | p :: _ =>
          writeFile_error W0 p = None
          ∧ ∃ w s', createWorkFile W0 Sample.deck (Sample.initial None) = (Ok w, s')
              ∧ path w = p
              ∧ nanoid_calls s' = 1%nat
              ∧ fs s' = <[p := text]> ∅
              ∧ trace s' = [] ++ ((λ q, EvWrite q text false) <$> failed)
                              ++ [EvWrite p text true; EvWorkFile p]
              ∧ console s' = []
              ∧ release_deletes W0 w p
        | [] =>
          ∃ e s', createWorkFile W0 Sample.deck (Sample.initial None) = (Throw e, s')
              ∧ writeFile_error W0 (path_join W0 (tmpdir W0) ".marp-vscode-tmp-id0") = Some e
              ∧ fs s' = ∅
              ∧ trace s' = [] ++ ((λ q, EvWrite q text false) <$> failed)
              ∧ console s' = []
        end.
Proof.
  intros W0 text.
  assert (Hdirty : ¬ (scheme (uri Sample.deck) = "file" ∧ isDirty Sample.deck = false)).
  { intros [_ H]. discriminate H. }
  split; [exact Hdirty|].
  exact (createWorkFile_fallback_chain W0 Sample.deck (Sample.initial None) Hdirty).
Defined.

(** ** The renderer call *)

Section RendererProofs.
Context (W : World).

(** [runMarpCli] written out: its result and its final state for each
    outcome of the renderer. *)
Lemma runMarpCli_unfold argv s :
  runMarpCli W argv s =
  let restored := Some (default "undefined" (env_CHROME_PATH s)) in
  match marpCli W argv with
  | Exit code =>
    (if bool_decide (code ≠ 0)
     then Throw (MarpCLIError (exit_code_message code))
     else Ok tt,
     set_env restored (at_call W argv s))
  | RendererThrows e =>
    (Throw (if is_NOT_FOUND_CHROMIUM W e
            then MarpCLIError (install_message W) else e),
     set_env restored (log (LogError e) (at_call W argv s)))
  end.
Proof.
  unfold runMarpCli, at_call, bind, try_finally, try_catch, assign_CHROME_PATH,
    call_marpCli, console_info, console_error, modify, throw, ret.
  simpl.
  destruct (marpCli W argv) as [code|e]; simpl.
  - by destruct (bool_decide (code ≠ 0)).
  - by destruct (is_NOT_FOUND_CHROMIUM W e).
Qed.

(** After any call the variable holds the string conversion of what it held
    before: the same text when it was set, the text "undefined" when it was
    not. *)
Lemma runMarpCli_CHROME_PATH argv s :
  env_CHROME_PATH (snd (runMarpCli W argv s))
  = Some (default "undefined" (env_CHROME_PATH s)).
Proof.
  rewrite runMarpCli_unfold. simpl.
  by destruct (marpCli W argv).
Qed.

(** With [CHROME_PATH] set before the call, it has the same value after it,
    whether the call resolves or throws. *)
Lemma runMarpCli_restores_set_CHROME_PATH argv s v :
  env_CHROME_PATH s = Some v →
  env_CHROME_PATH (snd (runMarpCli W argv s)) = env_CHROME_PATH s.
Proof.
  intros Hset. rewrite runMarpCli_CHROME_PATH. by rewrite Hset.
Qed.

(** C8. [runMarpCli] resolves exactly when the renderer exits with code 0;
    for an exit code other than 0 it throws a [MarpCLIError] whose message
    ends with that code, so exit code 3 gives the message with "3". *)
Theorem runMarpCli_exit_code argv s :
  ((∃ s', runMarpCli W argv s = (Ok tt, s')) ↔ marpCli W argv = Exit 0)
  ∧ (∀ code, marpCli W argv = Exit code → code ≠ 0 →
       fst (runMarpCli W argv s)
       = Throw (MarpCLIError
                  ("Marp CLI throwed unexpected error with exit code "
                   +:+ pretty code +:+ ".")))
  ∧ (marpCli W argv = Exit 3 →
       fst (runMarpCli W argv s)
       = Throw (MarpCLIError "Marp CLI throwed unexpected error with exit code 3.")).
Proof.
  rewrite runMarpCli_unfold. cbv zeta.
  split; [|split].
  - split.
    + intros [s' Hrun]. destruct (marpCli W argv) as [code|e].
      * destruct (bool_decide (code ≠ 0)) eqn:Hc; [by inversion Hrun|].
        apply bool_decide_eq_false in Hc. f_equal.
        by destruct (decide (code = 0)).
      * by inversion Hrun.
    + intros ->. eexists. reflexivity.
  - intros code -> Hne. simpl. by rewrite bool_decide_true.
  - intros ->. reflexivity.
Qed.

(** C9. When the renderer throws a [CLIError] with the code
    [NOT_FOUND_CHROMIUM], [runMarpCli] throws a [MarpCLIError] with the
    installation hint; the hint mentions Chromium exactly when the platform
    is [linux].  Any other thrown value is thrown again as it is. *)
Theorem runMarpCli_renderer_throws argv s e :
  marpCli W argv = RendererThrows e →
  (∀ name message, e = CLIError (NOT_FOUND_CHROMIUM W) name message →
     ∃ hint, fst (runMarpCli W argv s) = Throw (MarpCLIError hint)
       ∧ (platform W = "linux" →
            hint = "It requires to install [Google Chrome](https://www.google.com/chrome/) or [Chromium](https://www.chromium.org/) for exporting.")
       ∧ (platform W ≠ "linux" →
            hint = "It requires to install [Google Chrome](https://www.google.com/chrome/) for exporting.")
       ∧ (mentions "Chromium" hint = true ↔ platform W = "linux"))
  ∧ ((∀ name message, e ≠ CLIError (NOT_FOUND_CHROMIUM W) name message) →
     fst (runMarpCli W argv s) = Throw e).
Proof.
  intros Hthrows. rewrite runMarpCli_unfold, Hthrows. simpl. split.
  - intros name message ->. simpl. rewrite bool_decide_true by done.
    exists (install_message W). split; [done|].
    unfold install_message, chromium_hint.
    destruct (decide (platform W = "linux")) as [Hlinux|Hother].
    + rewrite bool_decide_true by done. by repeat split.
    + rewrite bool_decide_false by done.
      repeat split; done.
  - intros Hne. destruct e as [code name message| | |]; try done.
    simpl. destruct (decide (code = NOT_FOUND_CHROMIUM W)) as [->|Hcode].
    + by destruct (Hne name message).
    + by rewrite bool_decide_false.
Qed.

End RendererProofs.

Lemma runMarpCli_exit_code_witness :
  let W0 := Sample.world [] [] (λ _, None) None "linux" [] (Exit 3) in
  marpCli W0 [] = Exit 3
  ∧ fst (runMarpCli W0 [] (Sample.initial None))
    = Throw (MarpCLIError "Marp CLI throwed unexpected error with exit code 3.").
Proof.
  intros W0. split; [reflexivity|].
  apply (runMarpCli_exit_code W0 [] (Sample.initial None)). reflexivity.
Defined.

Lemma runMarpCli_renderer_throws_witness :
  let W0 := Sample.world [] [] (λ _, None) None "darwin" []
              (RendererThrows (CLIError 2 "CLIError" "no browser")) in
  marpCli W0 [] = RendererThrows (CLIError 2 "CLIError" "no browser")
  ∧ CLIError 2 "CLIError" "no browser" = CLIError (NOT_FOUND_CHROMIUM W0) "CLIError" "no browser"
  ∧ ∃ hint, fst (runMarpCli W0 [] (Sample.initial None)) = Throw (MarpCLIError hint)
       ∧ (platform W0 = "linux" →
            hint = "It requires to install [Google Chrome](https://www.google.com/chrome/) or [Chromium](https://www.chromium.org/) for exporting.")
       ∧ (platform W0 ≠ "linux" →
            hint = "It requires to install [Google Chrome](https://www.google.com/chrome/) for exporting.")
       ∧ (mentions "Chromium" hint = true ↔ platform W0 = "linux").
Proof.
  intros W0. split; [reflexivity|]. split; [reflexivity|].
  apply (proj1 (runMarpCli_renderer_throws W0 [] (Sample.initial None) _ eq_refl)
           "CLIError" "no browser" eq_refl).
Defined.

(** C3 (the variable was not set before the call).  On a run with
    [CHROME_PATH] unset, no configured browser path and a renderer that exits
    with 0, the call resolves and leaves [CHROME_PATH] set to the text
    "undefined": the value after the call is not the value before it. *)
Theorem runMarpCli_unset_CHROME_PATH_not_restored :
  let W0 := Sample.world [] [] (λ _, None) None "linux" [] (Exit 0) in
  let before := Sample.initial None in
  let after := snd (runMarpCli W0 [] before) in
  env_CHROME_PATH before = None
  ∧ fst (runMarpCli W0 [] before) = Ok tt
  ∧ env_CHROME_PATH after = Some "undefined"
  ∧ env_CHROME_PATH after ≠ env_CHROME_PATH before.
Proof.
  cbv zeta. repeat split; try reflexivity. discriminate.
Qed.

(** ** Trace discipline of the whole export *)

Section Emits.
Context {A : Type} (P : Event → Prop).

Lemma emits_ret (R : A → Prop) a : R a → emits P R (ret a).
Proof.
  intros HR s. exists []. simpl. rewrite app_nil_r.
  repeat split; [constructor|]. by intros ? [= <-].
Qed.

Lemma emits_throw (R : A → Prop) e : emits P R (throw e).
Proof.
  intros s. exists []. simpl. rewrite app_nil_r.
  repeat split; [constructor|]. by intros ? [=].
Qed.

Lemma emits_weaken (R R' : A → Prop) m :
  (∀ a, R a → R' a) → emits P R m → emits P R' m.
Proof.
  intros Himp Hm s. destruct (Hm s) as (t & Ht & HP & HR).
  exists t. repeat split; [done..|]. intros a Ha. by apply Himp, HR.
Qed.

Lemma emits_bind {B} (Q : B → Prop) (R : A → Prop) (m : M B) (k : B → M A) :
  emits P Q m → (∀ b, Q b → emits P R (k b)) → emits P R (bind m k).
Proof.
  intros Hm Hk s. unfold bind.
  destruct (Hm s) as (t1 & Ht1 & HP1 & HQ).
  destruct (m s) as [[b|e] s1]; simpl in *.
  - destruct (Hk b (HQ b eq_refl) s1) as (t2 & Ht2 & HP2 & HR).
    exists (t1 ++ t2). rewrite Ht2, Ht1, app_assoc.
    repeat split; [by apply Forall_app|done].
  - exists t1. repeat split; [done..|]. by intros ? [=].
Qed.

Lemma emits_try_catch (R : A → Prop) (m : M A) h :
  emits P R m → (∀ e, emits P R (h e)) → emits P R (try_catch m h).
Proof.
  intros Hm Hh s. unfold try_catch.
  destruct (Hm s) as (t1 & Ht1 & HP1 & HR1).
  destruct (m s) as [[a|e] s1]; simpl in *.
  - exists t1. repeat split; [done..|]. intros ? [= <-]. by apply HR1.
  - destruct (Hh e s1) as (t2 & Ht2 & HP2 & HR2).
    exists (t1 ++ t2). rewrite Ht2, Ht1, app_assoc.
    repeat split; [by apply Forall_app|done].
Qed.

Lemma emits_try_finally (R : A → Prop) (Q : unit → Prop) (m : M A) fin :
  emits P R m → emits P Q fin → emits P R (try_finally m fin).
Proof.
  intros Hm Hf s. unfold try_finally.
  destruct (Hm s) as (t1 & Ht1 & HP1 & HR1).
  destruct (m s) as [r s1]; simpl in *.
  destruct (Hf s1) as (t2 & Ht2 & HP2 & _).
  exists (t1 ++ t2).
  destruct (fin s1) as [[[]|e] s2]; simpl in *;
    rewrite Ht2, Ht1, app_assoc; repeat split; try by apply Forall_app.
  - intros a ->. by apply HR1.
  - by intros ? [=].
Qed.

Lemma emits_not_awaited (R : A → Prop) (m : M A) :
  emits P R m → emits P (λ _, True) (not_awaited m).
Proof.
  intros Hm s. unfold not_awaited. destruct (Hm s) as (t & Ht & HP & _).
  exists t. by repeat split.
Qed.

Lemma emits_promise_all (R : A → Prop) (ms : list (M A)) :
  Forall (emits P R) ms → emits P (Forall R) (promise_all ms).
Proof.
  induction 1 as [|m ms Hm _ IH]; intros s; simpl.
  - exists []. rewrite app_nil_r. repeat split; [constructor|].
    intros ? [= <-]. constructor.
  - destruct (Hm s) as (t1 & Ht1 & HP1 & HR1).
    destruct (m s) as [r s1]; simpl in *.
    destruct (IH s1) as (t2 & Ht2 & HP2 & HR2).
    destruct (promise_all ms s1) as [rs s2]; simpl in *.
    exists (t1 ++ t2). rewrite Ht2, Ht1, app_assoc.
    repeat split; [by apply Forall_app|].
    intros l Hl. destruct r as [a|e], rs as [l'|e']; try done.
    injection Hl as <-. constructor; [by apply HR1|by apply HR2].
Qed.

End Emits.

Lemma emits_step (P : Event → Prop) ev :
  P ev → emits P (λ _ : unit, True) (modify (emit ev)).
Proof.
  intros HP s. exists [ev]. simpl. repeat split. by constructor.
Qed.

Lemma emits_silent (P : Event → Prop) (f : State → State) :
  (∀ s, trace (f s) = trace s) → emits P (λ _ : unit, True) (modify f).
Proof.
  intros Hf s. exists []. simpl. rewrite Hf, app_nil_r. repeat split. constructor.
Qed.

Section Pipeline.
Context (W : World).

Local Hint Constructors pipeline_event : core.

Lemma emits_nanoid : emits pipeline_event (λ _, True) (nanoid W).
Proof.
  intros s. exists []. simpl. rewrite app_nil_r. repeat split. constructor.
Qed.

Lemma emits_writeFile p c :
  (∀ ok, pipeline_event (EvWrite p c ok)) →
  emits pipeline_event (λ _, True) (promiseWriteFile W p c).
Proof.
  intros HP s. unfold promiseWriteFile.
  destruct (writeFile_error W p);
    eexists [_]; simpl; repeat split; by constructor.
Qed.

Lemma emits_unlink p : emits pipeline_event (λ _, True) (promiseUnlink W p).
Proof.
  intros s. unfold promiseUnlink.
  destruct (unlink_error W p); [|destruct (fs s !! p)];
    eexists [_]; simpl; repeat split; by constructor.
Qed.

Lemma emits_console_error e : emits pipeline_event (λ _, True) (console_error e).
Proof. by apply emits_silent. Qed.

Lemma emits_console_info msg : emits pipeline_event (λ _, True) (console_info msg).
Proof. by apply emits_silent. Qed.

Lemma emits_new_WorkFile p c :
  emits pipeline_event (λ _, True) c →
  emits pipeline_event tame (new_WorkFile p c).
Proof.
  intros Hc. unfold new_WorkFile.
  eapply emits_bind; [by apply emits_step|].
  intros _ _. by apply emits_ret.
Qed.

Lemma emits_call_cleanup w :
  tame w → emits pipeline_event (λ _, True) (call_cleanup w).
Proof.
  intros Hw. unfold call_cleanup.
  eapply emits_bind; [by apply emits_step|]. by intros _ _.
Qed.

Lemma emits_write_step p text :
  emits pipeline_event tame
    (promiseWriteFile W p (Text text);; new_WorkFile p (createCleanup W p)).
Proof.
  eapply emits_bind; [by apply emits_writeFile|].
  intros _ _. apply emits_new_WorkFile, emits_unlink.
Qed.

Lemma emits_createWorkFile doc :
  emits pipeline_event tame (createWorkFile W doc).
Proof.
  unfold createWorkFile.
  destruct (bool_decide (scheme (uri doc) = "file") && negb (isDirty doc)).
  { apply emits_new_WorkFile. by apply emits_ret. }
  eapply emits_bind; [apply emits_nanoid|]. intros id _.
  apply emits_try_catch; [apply emits_write_step|]. intros _.
  destruct (getWorkspaceFolder W (uri doc)) as [folder|]; [|apply emits_write_step].
  destruct (bool_decide (scheme (folder_uri folder) = "file")); [|apply emits_write_step].
  apply emits_try_catch; [apply emits_write_step|]. intros _. apply emits_write_step.
Qed.

Lemma emits_resolveTheme promise :
  emits pipeline_event (from_option tame True) (resolveTheme W promise).
Proof.
  destruct promise as [theme|e]; simpl.
  - destruct (theme_type theme).
    + eapply emits_bind; [apply emits_new_WorkFile; by apply emits_ret|].
      intros w Hw. by apply emits_ret.
    + eapply emits_bind; [apply (emits_throw _ (λ _, True))|]. intros id _.
      eapply emits_bind; [by apply emits_writeFile|]. intros _ _.
      eapply emits_bind; [apply emits_new_WorkFile, emits_unlink|].
      intros w Hw. by apply emits_ret.
    + by apply emits_ret.
  - eapply emits_bind; [apply emits_console_error|]. intros _ _. by apply emits_ret.
Qed.

Lemma tame_omap (settled : list (option WorkFile)) :
  Forall (from_option tame True) settled → Forall tame (omap id settled).
Proof.
  induction 1 as [|[w|] l Hw _ IH]; simpl; [constructor| |done].
  by constructor.
Qed.

Lemma emits_marpCoreOptionForCLI doc :
  emits pipeline_event
    (λ o, allowLocalFiles o = true ∧ Forall tame (vscode_themeFiles o))
    (marpCoreOptionForCLI W doc).
Proof.
  unfold marpCoreOptionForCLI.
  eapply emits_bind.
  { apply emits_promise_all. apply Forall_fmap, Forall_true.
    intros promise. apply emits_resolveTheme. }
  intros settled Hsettled. apply emits_ret. simpl.
  split; [done|]. by apply tame_omap.
Qed.

Lemma emits_config_cleanup tmpPath themeFiles :
  Forall tame themeFiles →
  emits pipeline_event (λ _, True) (config_cleanup W tmpPath themeFiles).
Proof.
  intros Hthemes. unfold config_cleanup.
  eapply emits_bind; [|intros _ _; by apply emits_ret].
  apply (emits_promise_all _ (λ _, True)). constructor; [apply emits_unlink|].
  apply Forall_fmap. eapply Forall_impl; [done|].
  intros w Hw. by apply emits_call_cleanup.
Qed.

Lemma emits_createConfigFile target :
  emits pipeline_event tame (createConfigFile W target).
Proof.
  unfold createConfigFile.
  eapply emits_bind; [apply emits_nanoid|]. intros id _.
  eapply emits_bind; [apply emits_marpCoreOptionForCLI|].
  intros o [Hallow Hthemes].
  eapply emits_bind; [apply emits_writeFile; by constructor|]. intros _ _.
  by apply emits_new_WorkFile, emits_config_cleanup.
Qed.

Lemma emits_runMarpCli argv :
  emits pipeline_event (λ _, True) (runMarpCli W argv).
Proof.
  intros s. rewrite runMarpCli_unfold. cbv zeta.
  destruct (marpCli W argv); eexists [_]; simpl; repeat split; by constructor.
Qed.

(** The part of [doExport] that follows the proxy decision. *)
Lemma emits_export_body u document proxyServer baseUrl :
  emits pipeline_event (λ _, True)
    (try_finally
       (let! input := createWorkFile W document in
        try_finally
          (try_catch
             (let! conf :=
                call_with_surplus (createConfigFile W) document
                  {| extra_allowLocalFiles := negb (bool_decide (is_Some proxyServer)) |} in
              try_finally
                (runMarpCli W [ArgArr ["-c"; path conf; path input; "-o"; fsPath u];
                               ArgOpts baseUrl];;
                 openExternal u)
                (not_awaited (call_cleanup conf)))
             (λ e, showErrorMessage (failure_message e)))
          (not_awaited (call_cleanup input)))
       (match proxyServer with
        | Some server => dispose server
        | None => ret tt
        end)).
Proof.
  eapply emits_try_finally.
  - eapply emits_bind; [apply emits_createWorkFile|]. intros input Hinput.
    eapply emits_try_finally.
    + apply emits_try_catch.
      * eapply emits_bind; [apply emits_createConfigFile|]. intros conf Hconf.
        eapply emits_try_finally.
        -- eapply emits_bind; [apply emits_runMarpCli|]. intros _ _.
           by apply emits_step.
        -- eapply emits_not_awaited. by apply emits_call_cleanup.
      * intros e. by apply emits_step.
    + eapply emits_not_awaited. by apply emits_call_cleanup.
  - destruct proxyServer; [by apply emits_step|by apply emits_ret].
Qed.

Ltac run_export_body t Ht HP :=
  match goal with
  | |- context [snd (?m ?s0)] =>
    let H := fresh in
    assert (H : emits pipeline_event (λ _, True) m) by apply emits_export_body;
    destruct (H s0) as (t & Ht & HP & _); clear H
  end.

(** The trace of a whole export: the proxy creation, if any, followed by
    pipeline events. *)
Lemma doExport_trace u document s :
  ∃ t, Forall pipeline_event t
       ∧ trace (snd (doExport W u document s))
         = trace s ++ proxy_events W u document ++ t.
Proof.
  unfold doExport, proxy_events.
  destruct (proxyWorkspaceFolder W u document) as [folder|].
  - unfold createWorkspaceProxyServer.
    destruct (proxy_bind W folder) as [port|e].
    + erewrite bind_ok; [|reflexivity]. cbv beta. run_export_body t Ht HP.
      exists t. split; [done|]. rewrite Ht. simpl. by rewrite <- app_assoc.
    + exists []. split; [constructor|]. simpl. by rewrite app_nil_r.
  - erewrite bind_ok; [|reflexivity]. cbv beta. run_export_body t Ht HP.
    exists t. split; [done|]. by rewrite Ht.
Qed.

End Pipeline.

(** ** The proxy decision and the config file *)

Section ExportProofs.
Context (W : World).

Lemma pipeline_event_not_proxy_create t :
  Forall pipeline_event t → proxy_created t = false.
Proof.
  induction 1 as [|ev t Hev _ IH]; [done|].
  unfold proxy_created in *. simpl. rewrite IH. by destruct Hev.
Qed.

Lemma shouldProvideWorkspaceProxyServer_true u document :
  shouldProvideWorkspaceProxyServer W u document = true
  ↔ strip_leading_dot (path_extname W (uri_path u)) ∈ ["pdf"; "pptx"; "png"; "jpg"; "jpeg"]
    ∧ scheme (uri document) ∉ ["file"; "untitled"].
Proof.
  unfold shouldProvideWorkspaceProxyServer, chromiumRequiredExtensions. simpl.
  case_bool_decide as Hext.
  - rewrite negb_true_iff, bool_decide_eq_false. tauto.
  - split; [done|]. tauto.
Qed.

(** The proxy decision in the terms of the code.  Among the events of
    [doExport], a proxy server is created exactly when the extension of the
    target is one of pdf, pptx, png, jpg, jpeg, the scheme of the document is
    neither [file] nor [untitled], and the document has a workspace folder for
    which the server can bind. *)
Lemma doExport_proxy_events u document s :
  ∃ t, trace (snd (doExport W u document s)) = trace s ++ t
    ∧ (proxy_created t = true
       ↔ strip_leading_dot (path_extname W (uri_path u))
           ∈ ["pdf"; "pptx"; "png"; "jpg"; "jpeg"]
         ∧ (scheme (uri document) ∉ ["file"; "untitled"])
         ∧ ∃ folder port, getWorkspaceFolder W (uri document) = Some folder
                          ∧ proxy_bind W folder = inl port)
    ∧ (scheme (uri document) = "untitled" → proxy_created t = false).
Proof.
  destruct (doExport_trace W u document s) as (t & Ht & Htrace).
  exists (proxy_events W u document ++ t). split; [done|].
  assert (Hcreated : proxy_created (proxy_events W u document ++ t)
                     = proxy_created (proxy_events W u document)).
  { unfold proxy_created. rewrite existsb_app.
    fold (proxy_created t). rewrite (pipeline_event_not_proxy_create t Ht).
    apply orb_false_r. }
  rewrite Hcreated. unfold proxy_events, proxyWorkspaceFolder.
  pose proof (shouldProvideWorkspaceProxyServer_true u document) as Hshould.
  destruct (shouldProvideWorkspaceProxyServer W u document).
  - destruct (proj1 Hshould eq_refl) as [Hext Hscheme]. split.
    + destruct (getWorkspaceFolder W (uri document)) as [folder|].
      * destruct (proxy_bind W folder) as [port|e] eqn:Hbind; simpl.
        -- split; [|done]. intros _. repeat split; [done..|]. by exists folder, port.
        -- split; [done|]. intros (_ & _ & f & p & [= <-] & Hp). congruence.
      * split; [done|]. by intros (_ & _ & f & p & [=] & _).
    + intros Huntitled. exfalso. apply Hscheme. rewrite Huntitled.
      apply list_elem_of_further, list_elem_of_here.
  - split; [|done]. split; [done|].
    intros (Hext & Hscheme & _). by apply Hshould.
Qed.

Lemma marpCoreOptionForCLI_allowLocalFiles doc s o s' :
  marpCoreOptionForCLI W doc s = (Ok o, s') → allowLocalFiles o = true.
Proof.
  intros Hrun. destruct (emits_marpCoreOptionForCLI W doc s) as (_ & _ & _ & HR).
  apply HR. by rewrite Hrun.
Qed.

(** What a successful [createConfigFile] has done. *)
Lemma createConfigFile_ok target s conf s' :
  createConfigFile W target s = (Ok conf, s') →
  ∃ o s1,
    marpCoreOptionForCLI W target (bump_nanoid s) = (Ok o, s1)
    ∧ writeFile_error W (config_path W s) = None
    ∧ conf = {| path := config_path W s;
                cleanup := config_cleanup W (config_path W s) (vscode_themeFiles o) |}
    ∧ s' = emit (EvWorkFile (config_path W s))
             (emit (EvWrite (config_path W s) (JsonText (JSON_stringify o)) true)
                (set_fs (insert (config_path W s) (JsonText (JSON_stringify o))) s1)).
Proof.
  unfold createConfigFile. erewrite bind_ok; [|reflexivity]. simpl nanoid_calls.
  fold (config_path W s). intros Hrun.
  destruct (marpCoreOptionForCLI W target (bump_nanoid s)) as [[o|e] s1] eqn:Ho.
  2:{ erewrite bind_throw in Hrun; [|done]. discriminate Hrun. }
  erewrite bind_ok in Hrun; [|done].
  destruct (writeFile_error W (config_path W s)) as [e|] eqn:Hw.
  { erewrite write_step_fail in Hrun; [|done]. discriminate Hrun. }
  erewrite write_step_ok in Hrun; [|done].
  injection Hrun as <- <-. by exists o, s1.
Qed.

(** With no workspace folder for untitled documents, the guard of the code
    on the scheme and the lookup of the folder say what the specification
    says in (b) and (c). *)
Lemma proxy_condition_as_coded u document :
  (scheme (uri document) = "untitled" → getWorkspaceFolder W (uri document) = None) →
  proxy_condition_as_specified W u document
  ↔ strip_leading_dot (path_extname W (uri_path u)) ∈ ["pdf"; "pptx"; "png"; "jpg"; "jpeg"]
    ∧ (scheme (uri document) ∉ ["file"; "untitled"])
    ∧ is_Some (getWorkspaceFolder W (uri document)).
Proof.
  intros Huntitled. unfold proxy_condition_as_specified. split.
  - intros (Hext & Hfile & Hfolder). split_and!; [done| |done].
    intros Hin. apply elem_of_cons in Hin as [Hin|Hin]; [done|].
    apply list_elem_of_singleton in Hin.
    rewrite (Huntitled Hin) in Hfolder. by destruct Hfolder.
  - intros (Hext & Hscheme & Hfolder). split_and!; [done| |done].
    intros Hfile. apply Hscheme. rewrite Hfile. apply list_elem_of_here.
Qed.

(** C2. Take a document that, if it is untitled, belongs to no workspace
    folder.  [doExport] asks for a proxy server for it exactly when (a) the
    extension of the target is one of pdf, pptx, png, jpg, jpeg, (b) the
    document is not backed by a local file, that is, its scheme is not [file],
    and (c) the document has a workspace folder.  The server is then created
    if it can bind, and in no other case.  An export of an untitled document
    creates no proxy server. *)
Theorem doExport_proxy_decision u document s :
  (scheme (uri document) = "untitled" → getWorkspaceFolder W (uri document) = None) →
  (is_Some (proxyWorkspaceFolder W u document) ↔ proxy_condition_as_specified W u document)
  ∧ ∃ t, trace (snd (doExport W u document s)) = trace s ++ t
      ∧ (proxy_created t = true
         ↔ proxy_condition_as_specified W u document
           ∧ ∃ folder port, getWorkspaceFolder W (uri document) = Some folder
                            ∧ proxy_bind W folder = inl port)
      ∧ (scheme (uri document) = "untitled" → proxy_created t = false).
Proof.
  intros Huntitled.
  pose proof (proxy_condition_as_coded u document Huntitled) as Hcond.
  split.
  - rewrite Hcond. unfold proxyWorkspaceFolder.
    pose proof (shouldProvideWorkspaceProxyServer_true u document) as Hshould.
    destruct (shouldProvideWorkspaceProxyServer W u document).
    + destruct (proj1 Hshould eq_refl) as [Hext Hscheme]. tauto.
    + split; [by intros []|]. intros (Hext & Hscheme & _).
      by assert (false = true) by (by apply Hshould).
  - destruct (doExport_proxy_events u document s) as (t & Htr & Hiff & Hun).
    exists t. split_and!; [done| |done].
    rewrite Hiff, Hcond. split.
    + intros (Hext & Hscheme & folder & port & Hfolder & Hbind).
      split_and!; [done|done|by rewrite Hfolder|by exists folder, port].
    + intros ((Hext & Hscheme & _) & Hbound). by split_and!.
Qed.

(** C10. [createConfigFile] takes the target document only: a further
    argument does not change what it does.  The config file it writes has
    [allowLocalFiles] set to [true], and so has every config file written in
    the course of [doExport], with or without a proxy server. *)
Theorem createConfigFile_allowLocalFiles_true :
  (∀ target (extra : ConfigFileExtra),
     call_with_surplus (createConfigFile W) target extra = createConfigFile W target)
  ∧ (∀ target s conf s',
       createConfigFile W target s = (Ok conf, s') →
       ∃ j, fs s' !! path conf = Some (JsonText j)
            ∧ json_member "allowLocalFiles" j = Some (JBool true))
  ∧ (∀ u document s t p j ok,
       trace (snd (doExport W u document s)) = trace s ++ t →
       EvWrite p (JsonText j) ok ∈ t →
       json_member "allowLocalFiles" j = Some (JBool true)).
Proof.
  split; [done|]. split.
  - intros target s conf s' Hrun.
    destruct (createConfigFile_ok _ _ _ _ Hrun) as (o & s1 & Ho & _ & -> & ->).
    exists (JSON_stringify o). simpl. split; [by rewrite lookup_insert_eq|].
    by rewrite (marpCoreOptionForCLI_allowLocalFiles _ _ _ _ Ho).
  - intros u document s t p j ok Htrace Hin.
    destruct (doExport_trace W u document s) as (t' & Ht' & Htrace').
    rewrite Htrace' in Htrace. apply app_inv_head in Htrace. subst t.
    apply elem_of_app in Hin as [Hin|Hin].
    + unfold proxy_events in Hin.
      destruct (proxyWorkspaceFolder W u document) as [folder|]; [|by inversion Hin].
      destruct (proxy_bind W folder); [|by inversion Hin].
      apply list_elem_of_singleton in Hin. discriminate Hin.
    + rewrite Forall_forall in Ht'. specialize (Ht' _ Hin).
      inversion Ht' as [|? o ? Hallow| | | | | | |]; subst.
      simpl. by rewrite Hallow.
Qed.

End ExportProofs.

Lemma doExport_proxy_decision_witness :
  let W0 := Sample.world [] [] (λ _, None) None "linux" [] (Exit 0) in
  let u := Sample.file_uri "/out/deck.png" in
  let s := Sample.initial None in
  (scheme (uri Sample.untitled) = "untitled" → getWorkspaceFolder W0 (uri Sample.untitled) = None)
  ∧ (is_Some (proxyWorkspaceFolder W0 u Sample.untitled)
     ↔ proxy_condition_as_specified W0 u Sample.untitled)
  ∧ ∃ t, trace (snd (doExport W0 u Sample.untitled s)) = trace s ++ t
      ∧ (proxy_created t = true
         ↔ proxy_condition_as_specified W0 u Sample.untitled
           ∧ ∃ folder port, getWorkspaceFolder W0 (uri Sample.untitled) = Some folder
                            ∧ proxy_bind W0 folder = inl port)
      ∧ (scheme (uri Sample.untitled) = "untitled" → proxy_created t = false).
Proof.
  intros W0 u s.
  assert (Hfolder : scheme (uri Sample.untitled) = "untitled"
                    → getWorkspaceFolder W0 (uri Sample.untitled) = None)
    by (intros _; reflexivity).
  split; [exact Hfolder|].
  exact (doExport_proxy_decision W0 u Sample.untitled s Hfolder).
Defined.

Lemma createConfigFile_allowLocalFiles_true_witness :
  let W0 := Sample.world [] [] (λ _, Some Sample.virtual_folder) None "linux" [] (Exit 0) in
  let u := Sample.file_uri "/out/deck.pdf" in
  let s := Sample.initial None in
  let conf := "/tmp/.marp-vscode-cli-conf-id1.json" in
  let j := JSON_stringify
             {| allowLocalFiles := true; html := None; extensionAttrs := None;
                options_markdown_breaks := true; themeSet := [];
                vscode_themeFiles := [] |} in
  proxy_created (trace (snd (doExport W0 u Sample.virtual_deck s))) = true
  ∧ trace (snd (doExport W0 u Sample.virtual_deck s))
    = trace s ++ trace (snd (doExport W0 u Sample.virtual_deck s))
  ∧ EvWrite conf (JsonText j) true ∈ trace (snd (doExport W0 u Sample.virtual_deck s))
  ∧ json_member "allowLocalFiles" j = Some (JBool true).
Proof.
  intros W0 u s conf j.
  assert (Htrace : trace (snd (doExport W0 u Sample.virtual_deck s))
                   = trace s ++ trace (snd (doExport W0 u Sample.virtual_deck s)))
    by exact (eq_sym (app_nil_l _)).
  assert (Hin : EvWrite conf (JsonText j) true
                ∈ trace (snd (doExport W0 u Sample.virtual_deck s))).
  { vm_compute. do 3 apply list_elem_of_further. apply list_elem_of_here. }
  split; [by vm_compute|]. split; [exact Htrace|]. split; [exact Hin|].
  exact (proj2 (proj2 (createConfigFile_allowLocalFiles_true W0))
           u Sample.virtual_deck s _ conf j true Htrace Hin).
Defined.

(** ** Theme resolution *)

Lemma promise_all_cons_ok {A} (m : M A) ms s a s1 l s2 :
  m s = (Ok a, s1) → promise_all ms s1 = (Ok l, s2) →
  promise_all (m :: ms) s = (Ok (a :: l), s2).
Proof. intros Hm Hms. simpl. by rewrite Hm, Hms. Qed.

Lemma promise_all_cons_throw {A} (m : M A) ms s e s1 :
  m s = (Throw e, s1) →
  promise_all (m :: ms) s = (Throw e, snd (promise_all ms s1)).
Proof. intros Hm. simpl. rewrite Hm. by destruct (promise_all ms s1). Qed.

Lemma string_length_app s1 s2 :
  String.length (s1 +:+ s2) = (String.length s1 + String.length s2)%nat.
Proof. induction s1 as [|c s1 IH]; simpl; [done|]. by rewrite IH. Qed.

Lemma string_app_inj_r t s1 s2 : s1 +:+ t = s2 +:+ t → s1 = s2.
Proof.
  revert s2. induction s1 as [|c s1 IH]; intros [|c' s2] Heq; simpl in *.
  - done.
  - apply (f_equal String.length) in Heq.
    rewrite !string_length_app in Heq. simpl in Heq. lia.
  - apply (f_equal String.length) in Heq.
    rewrite !string_length_app in Heq. simpl in Heq. lia.
  - injection Heq as -> Heq. f_equal. by apply IH.
Qed.

Section ThemeProofs.
Context (W : World).

(** A remote theme that was fetched: the call of [nanoid] throws, nothing is
    written and no id is drawn. *)
Lemma resolveTheme_remote theme s :
  theme_type theme = Remote →
  resolveTheme W (Fulfilled theme) s = (Throw (not_callable W), s).
Proof. intros Hremote. unfold resolveTheme. by rewrite Hremote. Qed.

(** What the resolution of the themes does to the state, whatever its
    result: it logs the rejections and builds the work files of the local
    themes; it writes no file and draws no id. *)
Lemma resolve_all_state promises s :
  let s' := snd (promise_all (resolveTheme W <$> promises) s) in
  fs s' = fs s
  ∧ nanoid_calls s' = nanoid_calls s
  ∧ env_CHROME_PATH s' = env_CHROME_PATH s
  ∧ console s' = console s ++ (LogError <$> rejections promises)
  ∧ trace s' = trace s ++ (EvWorkFile <$> (theme_path <$> local_themes promises)).
Proof.
  cbv zeta. revert s. induction promises as [|[theme|e] promises IH]; intros s.
  - simpl. by rewrite !app_nil_r.
  - rewrite fmap_cons. destruct (theme_type theme) eqn:Htype.
    + (* a local file *)
      specialize (IH (emit (EvWorkFile (theme_path theme)) s)).
      assert (Hsnd : snd (promise_all (resolveTheme W (Fulfilled theme)
                                       :: (resolveTheme W <$> promises)) s)
                     = snd (promise_all (resolveTheme W <$> promises)
                              (emit (EvWorkFile (theme_path theme)) s))).
      { simpl. rewrite Htype. simpl.
        by destruct (promise_all (resolveTheme W <$> promises) _). }
      rewrite Hsnd. simpl local_themes. rewrite Htype.
      destruct IH as (Hfs & Hids & Henv & Hlog & Htr).
      split_and!; [done..|]. rewrite Htr. simpl. by rewrite <- app_assoc.
    + (* a remote theme *)
      erewrite promise_all_cons_throw; [|by apply resolveTheme_remote].
      simpl local_themes. rewrite Htype. apply IH.
    + (* a type the code does not handle *)
      assert (Hsnd : snd (promise_all (resolveTheme W (Fulfilled theme)
                                       :: (resolveTheme W <$> promises)) s)
                     = snd (promise_all (resolveTheme W <$> promises) s)).
      { simpl. rewrite Htype. simpl.
        by destruct (promise_all (resolveTheme W <$> promises) _). }
      rewrite Hsnd. simpl local_themes. rewrite Htype. apply IH.
  - (* a rejected promise *)
    rewrite fmap_cons.
    assert (Hsnd : snd (promise_all (resolveTheme W (Rejected e)
                                     :: (resolveTheme W <$> promises)) s)
                   = snd (promise_all (resolveTheme W <$> promises) (log (LogError e) s))).
    { simpl. by destruct (promise_all (resolveTheme W <$> promises) _). }
    rewrite Hsnd.
    destruct (IH (log (LogError e) s)) as (Hfs & Hids & Henv & Hlog & Htr).
    split_and!; [done..| |done].
    rewrite Hlog. simpl. by rewrite <- app_assoc.
Qed.

(** The resolution rejects as soon as one remote theme was fetched. *)
Lemma resolve_all_remote promises s :
  existsb remote_fulfilled promises = true →
  fst (promise_all (resolveTheme W <$> promises) s) = Throw (not_callable W).
Proof.
  revert s. induction promises as [|[theme|e] promises IH]; intros s Hremote;
    [discriminate Hremote|..]; rewrite fmap_cons.
  - simpl in Hremote. destruct (theme_type theme) eqn:Htype.
    + simpl. rewrite Htype. simpl.
      specialize (IH (emit (EvWorkFile (theme_path theme)) s) Hremote).
      destruct (promise_all (resolveTheme W <$> promises) _) as [rs s2].
      simpl in IH. by rewrite IH.
    + by erewrite promise_all_cons_throw; [|by apply resolveTheme_remote].
    + simpl. rewrite Htype. simpl. specialize (IH s Hremote).
      destruct (promise_all (resolveTheme W <$> promises) _) as [rs s2].
      simpl in IH. by rewrite IH.
  - simpl in *. specialize (IH (log (LogError e) s) Hremote).
    destruct (promise_all (resolveTheme W <$> promises) _) as [rs s2].
    simpl in IH. by rewrite IH.
Qed.

(** Without a fetched remote theme the resolution fulfils with the work
    files of the local themes, in the order of the promises; their cleanup
    does nothing. *)
Lemma resolve_all_local promises s :
  existsb remote_fulfilled promises = false →
  ∃ settled,
    fst (promise_all (resolveTheme W <$> promises) s) = Ok settled
    ∧ path <$> omap id settled = theme_path <$> local_themes promises
    ∧ Forall noop_release (omap id settled).
Proof.
  revert s. induction promises as [|[theme|e] promises IH]; intros s Hlocal.
  - by exists [].
  - rewrite fmap_cons. simpl in Hlocal. destruct (theme_type theme) eqn:Htype;
      [|discriminate Hlocal|].
    + destruct (IH (emit (EvWorkFile (theme_path theme)) s) Hlocal)
        as (settled & Hall & Hpaths & Hnoop).
      exists (Some {| path := theme_path theme; cleanup := ret tt |} :: settled).
      simpl. rewrite Htype. simpl.
      destruct (promise_all (resolveTheme W <$> promises) _) as [rs s2].
      simpl in Hall. rewrite Hall.
      split_and!; [done|f_equal; exact Hpaths|by constructor].
    + destruct (IH s Hlocal) as (settled & Hall & Hpaths & Hnoop).
      exists (None :: settled). simpl. rewrite Htype. simpl.
      destruct (promise_all (resolveTheme W <$> promises) _) as [rs s2].
      simpl in Hall. by rewrite Hall.
  - rewrite fmap_cons. simpl in Hlocal.
    destruct (IH (log (LogError e) s) Hlocal) as (settled & Hall & Hpaths & Hnoop).
    exists (None :: settled). simpl.
    destruct (promise_all (resolveTheme W <$> promises) _) as [rs s2].
    simpl in Hall. by rewrite Hall.
Qed.

(** The two results of [marpCoreOptionForCLI]. *)
Lemma marpCoreOptionForCLI_remote doc s :
  existsb remote_fulfilled (loadStyles W (stylesRoot W (uri doc))) = true →
  fst (marpCoreOptionForCLI W doc s) = Throw (not_callable W)
  ∧ fs (snd (marpCoreOptionForCLI W doc s)) = fs s.
Proof.
  intros Hremote. unfold marpCoreOptionForCLI.
  pose proof (resolve_all_remote _ s Hremote) as Hthrow.
  destruct (resolve_all_state (loadStyles W (stylesRoot W (uri doc))) s) as (Hfs & _).
  destruct (promise_all _ s) as [[settled|e] s'] eqn:Hall; [discriminate Hthrow|].
  simpl in *. injection Hthrow as ->.
  by erewrite bind_throw.
Qed.

Lemma marpCoreOptionForCLI_local doc s :
  existsb remote_fulfilled (loadStyles W (stylesRoot W (uri doc))) = false →
  ∃ o s',
    marpCoreOptionForCLI W doc s = (Ok o, s')
    ∧ themeSet o = theme_path <$> local_themes (loadStyles W (stylesRoot W (uri doc)))
    ∧ path <$> vscode_themeFiles o = themeSet o
    ∧ Forall noop_release (vscode_themeFiles o)
    ∧ console s' = console s
                   ++ (LogError <$> rejections (loadStyles W (stylesRoot W (uri doc))))
    ∧ fs s' = fs s
    ∧ html o = or_undefined (cfg_enableHtml W)
    ∧ extensionAttrs o = or_undefined (cfg_enableExtensionAttrs W)
    ∧ options_markdown_breaks o = breaks W (truthy_bool (preview_breaks W (uri doc))).
Proof.
  intros Hlocal. unfold marpCoreOptionForCLI.
  destruct (resolve_all_local _ s Hlocal) as (settled & Hok & Hpaths & Hnoop).
  destruct (resolve_all_state (loadStyles W (stylesRoot W (uri doc))) s)
    as (Hfs & _ & _ & Hlog & _).
  destruct (promise_all _ s) as [[l|e] s'] eqn:Hall; [|discriminate Hok].
  simpl in *. injection Hok as ->.
  erewrite bind_ok; [|exact Hall].
  eexists _, s'. split; [reflexivity|]. simpl. by split_and!.
Qed.

End ThemeProofs.

(** C6 (one remote fetch fails, the other one succeeds).  Two remote themes
    are configured; the promise of the first rejects, the promise of the second
    fulfils with the theme.  [marpCoreOptionForCLI] throws the [TypeError] of
    the call [nanoid()]: it returns no work file, it has built none, and no
    temp file was written for the theme that was fetched. *)
Theorem marpCoreOptionForCLI_remote_theme_throws :
  let e := JsErrorObj "Error" "Request failed with status code 404" in
  let W0 := Sample.world [] [] (λ _, None) None "linux"
              [Rejected e; Fulfilled Sample.remote_theme] (Exit 0) in
  let run := marpCoreOptionForCLI W0 Sample.deck (Sample.initial None) in
  fst run = Throw (JsErrorObj "TypeError" "nanoid is not a function")
  ∧ trace (snd run) = []
  ∧ fs (snd run) = ∅.
Proof.
  cbv zeta. split_and!; by vm_compute.
Qed.

(** ** Cleanup of the config file *)

Section CleanupProofs.
Context (W : World).

Lemma promiseUnlink_effect p t :
  ∃ ok, trace (snd (promiseUnlink W p t)) = trace t ++ [EvUnlink p ok]
    ∧ (∀ q, fs t !! q = None → fs (snd (promiseUnlink W p t)) !! q = None)
    ∧ (unlink_error W p = None → fs (snd (promiseUnlink W p t)) !! p = None).
Proof.
  unfold promiseUnlink.
  destruct (unlink_error W p) as [e|] eqn:Hperm; [|destruct (fs t !! p) eqn:Hp].
  - exists false. by split_and!.
  - exists true. simpl. split_and!; [done| |].
    + intros q Hq. destruct (decide (p = q)) as [->|Hne].
      * apply lookup_delete_eq.
      * by rewrite lookup_delete_ne.
    + intros _. apply lookup_delete_eq.
  - exists false. by split_and!.
Qed.

Lemma promiseUnlink_frame p t q :
  q ≠ p → fs (snd (promiseUnlink W p t)) !! q = fs t !! q.
Proof.
  intros Hne. unfold promiseUnlink.
  destruct (unlink_error W p); [done|]. destruct (fs t !! p); [|done].
  simpl. by apply lookup_delete_ne.
Qed.

Lemma snd_bind_ret {A} (m : M A) t : snd ((m;; ret tt) t) = snd (m t).
Proof. unfold bind, ret. by destruct (m t) as [[a|e] t']. Qed.

Lemma cleanup_calls_app t1 t2 :
  cleanup_calls (t1 ++ t2) = cleanup_calls t1 ++ cleanup_calls t2.
Proof. unfold cleanup_calls. apply omap_app. Qed.

(** The theme work files of a resolution do nothing on cleanup. *)
Lemma resolved_theme_files promises s settled s' :
  promise_all (resolveTheme W <$> promises) s = (Ok settled, s') →
  Forall noop_release (omap id settled).
Proof.
  revert s settled s'.
  induction promises as [|promise promises IH]; intros s settled s' Hall.
  { injection Hall as <- <-. constructor. }
  rewrite fmap_cons in Hall. simpl in Hall.
  destruct (resolveTheme W promise s) as [r s1] eqn:Hone.
  destruct (promise_all (resolveTheme W <$> promises) s1) as [rs s2] eqn:Hrest.
  destruct r as [a|e]; [|discriminate Hall].
  destruct rs as [l|e]; [|discriminate Hall].
  injection Hall as <- <-.
  specialize (IH _ _ _ Hrest).
  destruct a as [w|]; [|exact IH]. simpl. constructor; [|exact IH].
  destruct promise as [theme|e]; simpl in Hone.
  - destruct (theme_type theme).
    + by injection Hone as <- <-.
    + discriminate Hone.
    + discriminate Hone.
  - discriminate Hone.
Qed.

(** Running the cleanups of work files that need no release, one after the
    other: each is called, and nothing else happens. *)
Lemma theme_cleanups themeFiles t :
  Forall noop_release themeFiles →
  promise_all (call_cleanup <$> themeFiles) t
  = (Ok ((λ _, tt) <$> themeFiles),
     {| fs := fs t; env_CHROME_PATH := env_CHROME_PATH t;
        nanoid_calls := nanoid_calls t; console := console t;
        trace := trace t ++ (EvCleanup <$> (path <$> themeFiles)) |}).
Proof.
  intros Hnoop. revert t. induction Hnoop as [|w themeFiles Hw _ IH]; intros t.
  { simpl. rewrite app_nil_r. by destruct t. }
  rewrite fmap_cons. simpl.
  unfold call_cleanup at 1. unfold bind at 1. unfold modify at 1.
  rewrite Hw, IH. simpl. by rewrite <- app_assoc.
Qed.

(** C7. After a successful [createConfigFile], the theme work files of the
    config are those of local themes, whose cleanup does nothing.  The cleanup
    of the returned work file tries to delete the config file and calls the
    cleanup of every theme work file, once each and in order, whether or not
    the deletion of the config file succeeds; the config file is gone when its
    deletion is not refused, and no other file is touched. *)
Theorem createConfigFile_cleanup_exhaustive target s conf s1 :
  createConfigFile W target s = (Ok conf, s1) →
  ∃ o s0,
    marpCoreOptionForCLI W target (bump_nanoid s) = (Ok o, s0)
    ∧ fs s1 !! path conf = Some (JsonText (JSON_stringify o))
    ∧ Forall noop_release (vscode_themeFiles o)
    ∧ ∀ t, ∃ ok,
        trace (snd (cleanup conf t))
        = trace t ++ EvUnlink (path conf) ok
                     :: (EvCleanup <$> (path <$> vscode_themeFiles o))
        ∧ (fst (cleanup conf t) = Ok tt ↔ ok = true)
        ∧ (unlink_error W (path conf) = None →
           fs (snd (cleanup conf t)) !! path conf = None)
        ∧ (∀ q, q ≠ path conf → fs (snd (cleanup conf t)) !! q = fs t !! q).
Proof.
  intros Hbuild.
  destruct (createConfigFile_ok W _ _ _ _ Hbuild) as (o & s0 & Ho & Hw & -> & ->).
  exists o, s0. simpl.
  assert (Hnoop : Forall noop_release (vscode_themeFiles o)).
  { unfold marpCoreOptionForCLI, bind in Ho.
    destruct (promise_all _ (bump_nanoid s)) as [[settled|e] s'] eqn:Hall;
      [|discriminate Ho].
    injection Ho as <- <-. simpl. by eapply resolved_theme_files. }
  split_and!; [done|by rewrite lookup_insert_eq|done|].
  intros t. unfold config_cleanup.
  pose proof (promiseUnlink_frame (config_path W s) t) as Hframe.
  destruct (promiseUnlink_effect (config_path W s) t) as (ok & Htr0 & _ & Hgone0).
  assert (Hres : fst (promiseUnlink W (config_path W s) t) = Ok tt ↔ ok = true).
  { revert Htr0. unfold promiseUnlink.
    destruct (unlink_error W (config_path W s)); [|destruct (fs t !! config_path W s)];
      simpl; intros Htr0; apply app_inv_head in Htr0; injection Htr0 as <-; done. }
  exists ok. unfold bind. simpl.
  destruct (promiseUnlink W (config_path W s) t) as [r0 t0]. simpl in *.
  rewrite (theme_cleanups (vscode_themeFiles o) t0 Hnoop).
  destruct r0 as [[]|e0]; simpl; rewrite Htr0, <- app_assoc; simpl;
    split_and!; try done.
Qed.

End CleanupProofs.

Lemma createConfigFile_cleanup_exhaustive_witness :
  let W0 := Sample.world [] ["/tmp/.marp-vscode-cli-conf-id0.json"] (λ _, None) None "linux"
              [Fulfilled Sample.local_theme] (Exit 0) in
  let s := Sample.initial None in
  ∃ conf s1,
    createConfigFile W0 Sample.deck s = (Ok conf, s1)
    ∧ ∃ o s0,
        marpCoreOptionForCLI W0 Sample.deck (bump_nanoid s) = (Ok o, s0)
        ∧ fs s1 !! path conf = Some (JsonText (JSON_stringify o))
        ∧ Forall noop_release (vscode_themeFiles o)
        ∧ ∀ t, ∃ ok,
            trace (snd (cleanup conf t))
            = trace t ++ EvUnlink (path conf) ok
                         :: (EvCleanup <$> (path <$> vscode_themeFiles o))
            ∧ (fst (cleanup conf t) = Ok tt ↔ ok = true)
            ∧ (unlink_error W0 (path conf) = None →
               fs (snd (cleanup conf t)) !! path conf = None)
            ∧ (∀ q, q ≠ path conf → fs (snd (cleanup conf t)) !! q = fs t !! q).
Proof.
  intros W0 s.
  destruct (createConfigFile W0 Sample.deck s) as [[conf|e] s1] eqn:Hbuild.
  - exists conf, s1. split; [reflexivity|].
    exact (createConfigFile_cleanup_exhaustive W0 Sample.deck s conf s1 Hbuild).
  - vm_compute in Hbuild. discriminate Hbuild.
Defined.

(** ** Reading the events of a run *)

Lemma trace_seq (s s1 s2 : State) t1 t2 :
  trace s1 = trace s ++ t1 → trace s2 = trace s1 ++ t2 →
  trace s2 = trace s ++ (t1 ++ t2).
Proof. intros H1 H2. by rewrite H2, H1, app_assoc. Qed.

Lemma omap_fmap_all {A B} (f : B → option A) (g : A → B) (l : list A) :
  (∀ x, f (g x) = Some x) → omap f (g <$> l) = l.
Proof.
  intros Hfg. induction l as [|x l IH]; [done|].
  rewrite fmap_cons. simpl. rewrite Hfg. simpl. f_equal. exact IH.
Qed.

Lemma omap_fmap_none {A B C} (f : B → option C) (g : A → B) (l : list A) :
  (∀ x, f (g x) = None) → omap f (g <$> l) = [].
Proof.
  intros Hfg. induction l as [|x l IH]; [done|].
  rewrite fmap_cons. simpl. rewrite Hfg. exact IH.
Qed.

Lemma work_files_app t1 t2 : work_files (t1 ++ t2) = work_files t1 ++ work_files t2.
Proof. unfold work_files. apply omap_app. Qed.

Lemma proxy_disposals_app t1 t2 :
  proxy_disposals (t1 ++ t2) = proxy_disposals t1 ++ proxy_disposals t2.
Proof. unfold proxy_disposals. apply omap_app. Qed.

Lemma proxy_creations_app t1 t2 :
  proxy_creations (t1 ++ t2) = proxy_creations t1 ++ proxy_creations t2.
Proof. unfold proxy_creations. apply omap_app. Qed.

Lemma work_files_built l : work_files (EvWorkFile <$> l) = l.
Proof. by apply omap_fmap_all. Qed.

Lemma work_files_cleaned l : work_files (EvCleanup <$> l) = [].
Proof. by apply omap_fmap_none. Qed.

Lemma cleanup_calls_built l : cleanup_calls (EvWorkFile <$> l) = [].
Proof. by apply omap_fmap_none. Qed.

Lemma cleanup_calls_cleaned l : cleanup_calls (EvCleanup <$> l) = l.
Proof. by apply omap_fmap_all. Qed.

Lemma proxy_disposals_built l : proxy_disposals (EvWorkFile <$> l) = [].
Proof. by apply omap_fmap_none. Qed.

Lemma proxy_disposals_cleaned l : proxy_disposals (EvCleanup <$> l) = [].
Proof. by apply omap_fmap_none. Qed.

Lemma proxy_creations_built l : proxy_creations (EvWorkFile <$> l) = [].
Proof. by apply omap_fmap_none. Qed.

Lemma proxy_creations_cleaned l : proxy_creations (EvCleanup <$> l) = [].
Proof. by apply omap_fmap_none. Qed.

Lemma try_finally_not_awaited {A B} (m : M A) (c : M B) s :
  try_finally m (not_awaited c) s = (fst (m s), snd (c (snd (m s)))).
Proof. unfold try_finally, not_awaited. by destruct (m s). Qed.

(** ** The export when the config build throws *)

(** C1 (the config build throws).  One local theme is configured and the
    write of the config file fails.  [doExport] shows the failure and
    resolves without a renderer call.  The work file of the theme was built
    by [marpCoreOptionForCLI], and its cleanup is never called: the only
    cleanup call of the export is the one of the input work file. *)
Theorem doExport_config_write_failure_leaks_theme :
  let W0 := Sample.world ["/tmp/.marp-vscode-cli-conf-id1.json"] []
              (λ _, Some Sample.work_folder) None "linux"
              [Fulfilled Sample.local_theme] (Exit 0) in
  let run := doExport W0 (Sample.file_uri "/out/deck.pdf") Sample.deck (Sample.initial None) in
  let input := "/work/slides/.marp-vscode-tmp-id0" in
  let theme := "/work/themes/b.css" in
  fst run = Ok tt
  ∧ work_files (trace (snd run)) = [input; theme]
  ∧ cleanup_calls (trace (snd run)) = [input]
  ∧ renderer_calls (trace (snd run)) = []
  ∧ shown_errors (trace (snd run))
    = ["Failure to export: [Error] EACCES: permission denied, open '/tmp/.marp-vscode-cli-conf-id1.json'"].
Proof.
  cbv zeta. split_and!; by vm_compute.
Qed.

(** * Further properties of the code *)

(** ** The preview options and their cache *)

(** X1. Once [marpCoreOptionForPreview] has run, every later call returns
    the options of that first run, whatever the configuration and the base
    option of the later call are; only after [clearMarpCoreOptionCache] are
    the options built again, from the configuration of that moment. *)
Theorem marpCoreOptionForPreview_cached_until_cleared W1 W2 b1 b2 cache :
  let first := marpCoreOptionForPreview W1 b1 cache in
  let second := marpCoreOptionForPreview W2 b2 (snd first) in
  let third := marpCoreOptionForPreview W2 b2 (clearMarpCoreOptionCache (snd second)) in
  fst second = fst first
  ∧ snd second = snd first
  ∧ snd first = Some (fst first)
  ∧ preview_html (fst third) = or_undefined (cfg_enableHtml W2)
  ∧ preview_extensionAttrs (fst third) = or_undefined (cfg_enableExtensionAttrs W2)
  ∧ markdown_breaks (fst third)
    = (if bool_decide (cfg_breaks W2 = "off") then false
       else if bool_decide (cfg_breaks W2 = "inherit") then bool_decide (b2 = Some true)
       else true)
  ∧ snd third = Some (fst third).
Proof.
  cbv zeta. unfold marpCoreOptionForPreview, clearMarpCoreOptionCache.
  destruct cache as [cached|]; simpl; split_and!; try done.
  all: unfold breaks; repeat case_bool_decide; try done.
  all: by destruct b2 as [[]|].
Qed.

(** ** The save dialog *)

Lemma set_spread_from_fresh seen items :
  NoDup items → (∀ x, x ∈ items → x ∉ seen) →
  set_spread_from seen items = items.
Proof.
  intros Hnodup. revert seen.
  induction Hnodup as [|x items Hx _ IH]; intros seen Hseen; [done|].
  simpl. rewrite bool_decide_false by (apply Hseen; left).
  f_equal. apply IH. intros y Hy [->|Hin]%elem_of_cons.
  - done.
  - by apply (Hseen y); [right|].
Qed.

Lemma type_of_name_Some d ty : type_of_name d = Some ty ↔ d = type_name ty.
Proof.
  unfold type_of_name. split.
  - repeat case_bool_decide; intros [= <-]; by subst.
  - intros ->. by destruct ty.
Qed.

Lemma type_of_name_None d : type_of_name d = None ↔ d ∉ baseTypes.
Proof.
  unfold type_of_name, baseTypes. simpl. split.
  - repeat case_bool_decide; intros [=].
    intros Hin. repeat (apply elem_of_cons in Hin as [->|Hin]; [done|]).
    by apply elem_of_nil in Hin.
  - intros Hnot.
    repeat (case_bool_decide;
            [subst; exfalso; apply Hnot;
             repeat first [apply list_elem_of_here | apply list_elem_of_further]|]).
    done.
Qed.

(** X2. Whatever the [exportType] setting is, the save dialog offers the
    same five filters, each description with its own extensions.  A setting
    that names one of the five types puts that type first; any other text is
    ignored and the filters come in the order of [Types]. *)
Theorem save_filters_five_types defaultType :
  save_filters defaultType ≡ₚ base_filters
  ∧ (∀ ty, defaultType = type_name ty →
       head (save_filters defaultType) = Some (descriptions ty, extensions ty))
  ∧ (defaultType ∉ baseTypes → save_filters defaultType = base_filters).
Proof.
  destruct (type_of_name defaultType) as [ty|] eqn:Hty.
  - apply type_of_name_Some in Hty. subst defaultType.
    split_and!.
    + pose (moved (k : nat) (ty : Types) :=
              Permutation_middle (take k base_filters) (drop (S k) base_filters)
                (descriptions ty, extensions ty)).
      destruct ty;
        [ exact (moved 0%nat html_type) | exact (moved 1%nat pdf_type)
        | exact (moved 2%nat pptx_type) | exact (moved 3%nat png_type)
        | exact (moved 4%nat jpeg_type) ].
    + intros ty' Heq. assert (ty' = ty) as -> by (by destruct ty, ty').
      by destruct ty.
    + intros Hnot. exfalso. apply Hnot. destruct ty; unfold baseTypes; simpl;
        repeat first [apply list_elem_of_here | apply list_elem_of_further].
  - assert (Hnot : defaultType ∉ baseTypes) by (by apply type_of_name_None).
    assert (Hfilters : save_filters defaultType = base_filters).
    { unfold save_filters, set_spread.
      rewrite set_spread_from_fresh.
      - simpl. rewrite Hty. reflexivity.
      - constructor; [exact Hnot|].
        unfold baseTypes. simpl. repeat constructor; try apply not_elem_of_nil;
          intros Hin; repeat (apply elem_of_cons in Hin as [Hin|Hin]; [done|]);
          by apply elem_of_nil in Hin.
      - intros x _. apply not_elem_of_nil. }
    split_and!.
    + by rewrite Hfilters.
    + intros ty Heq. apply type_of_name_Some in Heq. congruence.
    + done.
Qed.

Lemma substring_0_0 s : String.substring 0 0 s = "".
Proof. by destruct s. Qed.

Lemma substring_prefix a b : String.substring 0 (String.length a) (a +:+ b) = a.
Proof.
  induction a as [|c a IH]; [apply substring_0_0|].
  change (String c a +:+ b) with (String c (a +:+ b)). simpl. by rewrite IH.
Qed.

(** X3. The default location of the save dialog is the path of the document
    without its extension.  When the path has no extension, [slice(0, -0)] cuts
    the whole path away and the default location is the empty path. *)
Theorem save_defaultUri_drops_extension W fsPath stem :
  fsPath = stem +:+ path_extname W fsPath →
  save_defaultUri W fsPath
  = if bool_decide (path_extname W fsPath = "") then "" else stem.
Proof.
  intros Hsuffix. unfold save_defaultUri, slice_from_0.
  destruct (path_extname W fsPath) as [|c ext] eqn:Hext.
  - rewrite (bool_decide_false (_ < 0)) by (simpl; lia).
    replace (Z.to_nat _) with 0%nat by (simpl; lia).
    rewrite substring_0_0. by rewrite bool_decide_true.
  - rewrite (bool_decide_true (_ < 0)) by (simpl; lia).
    rewrite (bool_decide_false (String c ext = "")) by done.
    clear Hext. subst fsPath. rewrite string_length_app.
    replace (Z.to_nat _) with (String.length stem) by (simpl; lia).
    apply substring_prefix.
Qed.

Lemma save_defaultUri_drops_extension_witness :
  let W0 := Sample.world [] [] (λ _, None) None "linux" [] (Exit 0) in
  "/work/slides/deck.md" = "/work/slides/deck" +:+ path_extname W0 "/work/slides/deck.md"
  ∧ save_defaultUri W0 "/work/slides/deck.md"
    = if bool_decide (path_extname W0 "/work/slides/deck.md" = "") then ""
      else "/work/slides/deck".
Proof.
  intros W0.
  assert (Hsuffix : "/work/slides/deck.md"
                    = "/work/slides/deck" +:+ path_extname W0 "/work/slides/deck.md")
    by reflexivity.
  split; [exact Hsuffix|].
  exact (save_defaultUri_drops_extension W0 "/work/slides/deck.md" "/work/slides/deck" Hsuffix).
Defined.

(** ** The export command *)

Section CommandProofs.
Context (W : World) (H : Window).

Lemma shown_app before ui : shown before (before ++ ui) = ui.
Proof. unfold shown. by rewrite drop_app_length. Qed.

(** [saveDialog] written out. *)
Lemma saveDialog_run document st :
  saveDialog W H document st =
  match showSaveDialog H (save_options W H document) with
  | None => (Ok tt, (fst st, snd st ++ [UiSaveDialog (save_options W H document)]))
  | Some saveURI =>
    (fst (doExport W saveURI document (fst st)),
     (snd (doExport W saveURI document (fst st)),
      snd st ++ [UiSaveDialog (save_options W H document);
                 UiProgress ("Exporting Marp slide deck to " +:+ uri_path saveURI +:+ "...")]))
  end.
Proof.
  unfold saveDialog, cmd_bind, show, cmd_ret, lift. simpl.
  fold (save_options W H document).
  destruct (showSaveDialog H (save_options W H document)) as [saveURI|]; [|done].
  simpl. destruct (doExport W saveURI document (fst st)) as [r s'].
  simpl. by rewrite <- app_assoc.
Qed.

(** What [saveDialog] shows. *)
Lemma saveDialog_shown document st :
  ∃ ui, snd (snd (saveDialog W H document st)) = snd st ++ ui
    ∧ existsb is_save_dialog ui = true
    ∧ existsb is_warning ui = false
    ∧ UiSaveDialog (save_options W H document) ∈ ui.
Proof.
  rewrite saveDialog_run.
  destruct (showSaveDialog H (save_options W H document)); eexists; simpl;
    (split; [reflexivity|]); split_and!; try done; apply list_elem_of_here.
Qed.

(** X4. [exportCommand] opens the save dialog exactly when there is an
    active editor whose document is Markdown or for which the user chose to
    continue after the warning; the warning is shown exactly for an active
    editor whose document is not Markdown.  In every other case the command
    resolves and leaves the program state as it was. *)
Theorem exportCommand_asks_before_export st :
  let run := exportCommand W H st in
  let ui := shown (snd st) (snd (snd run)) in
  (existsb is_save_dialog ui = true ↔ ∃ editor, export_requested H editor)
  ∧ (existsb is_warning ui = true
     ↔ ∃ editor, activeTextEditor H = Some editor ∧ languageId editor ≠ "markdown")
  ∧ ((¬ ∃ editor, export_requested H editor) →
     fst run = Ok tt ∧ fst (snd run) = fst st).
Proof.
  cbv zeta. unfold exportCommand, export_requested, ITEM_CONTINUE_TO_EXPORT.
  destruct (activeTextEditor H) as [editor|].
  2:{ simpl. unfold shown. rewrite drop_all. simpl. split_and!.
      - split; [done|]. by intros (e & [=] & _).
      - split; [done|]. by intros (e & [=] & _).
      - done. }
  case_bool_decide as Hlang.
  - destruct (saveDialog_shown (editor_document editor) st) as (ui & -> & Hdlg & Hwarn & _).
    rewrite shown_app, Hdlg, Hwarn. split_and!.
    + split; [|done]. intros _. exists editor. split; [done|by left].
    + split; [done|]. by intros (e & [= <-] & Hne).
    + intros Hnot. exfalso. apply Hnot. exists editor. split; [done|by left].
  - unfold cmd_bind, show, cmd_ret. simpl.
    case_bool_decide as Hacted.
    + destruct (saveDialog_shown (editor_document editor)
                  (fst st, snd st ++ [UiWarning "A current document is not Markdown document."
                                        ["Continue to export..."]]))
        as (ui & -> & Hdlg & Hwarn & _).
      simpl. rewrite <- app_assoc, shown_app. simpl. rewrite Hdlg. split_and!.
      * split; [|done]. intros _. exists editor. split; [done|by right].
      * split; [|done]. intros _. by exists editor.
      * intros Hnot. exfalso. apply Hnot. exists editor. split; [done|by right].
    + simpl. rewrite shown_app. simpl. split_and!.
      * split; [done|]. intros (e & [= <-] & [Hm|Hc]); done.
      * split; [|done]. intros _. by exists editor.
      * done.
Qed.

(** X5. When [exportCommand] goes on to the save dialog, the dialog gets
    the default location and the filters of the editor's document.  If the user
    picks a target, the command does what [doExport] does for that target and
    the document, result and program state, under a progress notification that
    names the target path; if the user cancels, nothing else happens. *)
Theorem exportCommand_exports_chosen_target st editor :
  export_requested H editor →
  let document := editor_document editor in
  let options := save_options W H document in
  let run := exportCommand W H st in
  let ui := shown (snd st) (snd (snd run)) in
  UiSaveDialog options ∈ ui
  ∧ match showSaveDialog H options with
    | Some saveURI =>
      fst run = fst (doExport W saveURI document (fst st))
      ∧ fst (snd run) = snd (doExport W saveURI document (fst st))
      ∧ last ui = Some (UiProgress ("Exporting Marp slide deck to "
                                    +:+ uri_path saveURI +:+ "..."))
    | None =>
      fst run = Ok tt ∧ fst (snd run) = fst st ∧ last ui = Some (UiSaveDialog options)
    end.
Proof.
  intros [Heditor Hgo]. cbv zeta.
  unfold exportCommand. rewrite Heditor.
  case_bool_decide as Hlang.
  - rewrite saveDialog_run.
    destruct (showSaveDialog H _) as [saveURI|]; simpl; rewrite shown_app;
      split_and!; try done; apply list_elem_of_here.
  - destruct Hgo as [Hm|Hacted]; [done|].
    unfold cmd_bind, show. simpl.
    unfold ITEM_CONTINUE_TO_EXPORT. rewrite bool_decide_true by done.
    rewrite saveDialog_run.
    destruct (showSaveDialog H _) as [saveURI|]; simpl;
      rewrite <- app_assoc, shown_app; split_and!; try done;
      apply list_elem_of_further, list_elem_of_here.
Qed.

End CommandProofs.

Lemma exportCommand_exports_chosen_target_witness :
  let W0 := Sample.world [] [] (λ _, None) None "linux" [] (Exit 0) in
  let target := Sample.file_uri "/out/notes.pdf" in
  let editor := {| editor_document := Sample.deck; languageId := "plaintext" |} in
  let H0 := SampleWindow.window Sample.deck "plaintext" (Some "Continue to export...")
              (Some target) in
  let st := (Sample.initial None, []) in
  let run := exportCommand W0 H0 st in
  let ui := shown (snd st) (snd (snd run)) in
  export_requested H0 editor
  ∧ UiSaveDialog (save_options W0 H0 Sample.deck) ∈ ui
  ∧ match showSaveDialog H0 (save_options W0 H0 Sample.deck) with
    | Some saveURI =>
      fst run = fst (doExport W0 saveURI Sample.deck (fst st))
      ∧ fst (snd run) = snd (doExport W0 saveURI Sample.deck (fst st))
      ∧ last ui = Some (UiProgress ("Exporting Marp slide deck to "
                                    +:+ uri_path saveURI +:+ "..."))
    | None =>
      fst run = Ok tt ∧ fst (snd run) = fst st
      ∧ last ui = Some (UiSaveDialog (save_options W0 H0 Sample.deck))
    end.
Proof.
  intros W0 target editor H0 st run ui.
  assert (Hrequested : export_requested H0 editor) by (split; [reflexivity|by right]).
  split; [exact Hrequested|].
  exact (exportCommand_exports_chosen_target W0 H0 st editor Hrequested).
Defined.

(** ** The outline of an export *)

Lemma outline_app t1 t2 : outline (t1 ++ t2) = outline t1 ++ outline t2.
Proof.
  induction t1 as [|ev t1 IH]; [done|].
  simpl. destruct (is_file_event ev); simpl; by rewrite IH.
Qed.

Section OutlineProofs.
Context (W : World).

(** The result of [createWorkFile] depends on the state through the number
    of ids drawn only. *)
Lemma createWorkFile_result doc s1 s2 :
  nanoid_calls s1 = nanoid_calls s2 →
  fst (createWorkFile W doc s1) = fst (createWorkFile W doc s2).
Proof.
  intros Hids. unfold createWorkFile.
  destruct (bool_decide (scheme (uri doc) = "file") && negb (isDirty doc)); [done|].
  unfold bind, try_catch, nanoid, promiseWriteFile, new_WorkFile, modify, ret,
    createCleanup.
  simpl. rewrite Hids.
  repeat match goal with
  | |- context [writeFile_error W ?p] => destruct (writeFile_error W p); simpl
  | |- context [getWorkspaceFolder W ?u] => destruct (getWorkspaceFolder W u); simpl
  | |- context [bool_decide ?P] => destruct (bool_decide P); simpl
  end; done.
Qed.

Lemma createWorkFile_outline doc s :
  ∃ t, trace (snd (createWorkFile W doc s)) = trace s ++ t
    ∧ match fst (createWorkFile W doc s) with
      | Ok w => outline t = [EvWorkFile (path w)] ∧ (noop_release w ∨ owns_file W w)
      | Throw _ => outline t = []
      end.
Proof.
  unfold createWorkFile.
  destruct (bool_decide (scheme (uri doc) = "file") && negb (isDirty doc)).
  { exists [EvWorkFile (fsPath (uri doc))]. simpl. split_and!; [done..|]. by left. }
  unfold bind, try_catch, nanoid, promiseWriteFile, new_WorkFile, modify, ret,
    createCleanup.
  simpl.
  repeat match goal with
  | |- context [writeFile_error W ?p] => destruct (writeFile_error W p); simpl
  | |- context [getWorkspaceFolder W ?u] => destruct (getWorkspaceFolder W u); simpl
  | |- context [bool_decide ?P] => destruct (bool_decide P); simpl
  end.
  all: eexists; (split; [rewrite <- ?app_assoc; reflexivity|]); simpl.
  all: try done.
  all: split; [done|]; by right.
Qed.

Lemma call_cleanup_outline w s :
  noop_release w ∨ owns_file W w →
  ∃ t, trace (snd (call_cleanup w s)) = trace s ++ t
       ∧ outline t = [EvCleanup (path w)].
Proof.
  intros [Hnoop|Howns]; unfold call_cleanup, bind, modify.
  - rewrite Hnoop. by exists [EvCleanup (path w)].
  - rewrite Howns.
    destruct (promiseUnlink_effect W (path w) (emit (EvCleanup (path w)) s))
      as (ok & Htr & _).
    exists [EvCleanup (path w); EvUnlink (path w) ok]. split; [|done].
    destruct (promiseUnlink W (path w) _) as [[[]|e] s']; simpl in *;
      by rewrite Htr, <- app_assoc.
Qed.

(** One theme promise: at most one work file is built, and it is the one
    returned. *)
Lemma resolveTheme_outline promise s :
  ∃ t built, trace (snd (resolveTheme W promise s)) = trace s ++ t
    ∧ outline t = EvWorkFile <$> built
    ∧ ∀ r, fst (resolveTheme W promise s) = Ok r →
        built = path <$> from_option (λ w, [w]) [] r.
Proof.
  destruct promise as [theme|e]; simpl.
  - destruct (theme_type theme).
    + exists [EvWorkFile (theme_path theme)], [theme_path theme]. simpl.
      split_and!; [done..|]. by intros r [= <-].
    + exists [], []. unfold bind, nanoid_default_import, throw. simpl.
      rewrite app_nil_r. split_and!; [done..|]. by intros r [=].
    + exists [], []. simpl. rewrite app_nil_r. split_and!; [done..|]. by intros r [= <-].
  - exists [], []. simpl. rewrite app_nil_r. split_and!; [done..|]. by intros r [= <-].
Qed.

Lemma resolve_outline promises s :
  ∃ t built, trace (snd (promise_all (resolveTheme W <$> promises) s)) = trace s ++ t
    ∧ outline t = EvWorkFile <$> built
    ∧ ∀ settled, fst (promise_all (resolveTheme W <$> promises) s) = Ok settled →
        built = path <$> omap id settled.
Proof.
  revert s. induction promises as [|promise promises IH]; intros s.
  { exists [], []. simpl. rewrite app_nil_r. split_and!; [done..|]. by intros ? [= <-]. }
  rewrite fmap_cons. simpl.
  destruct (resolveTheme_outline promise s) as (t1 & b1 & Htr1 & Hout1 & Hres1).
  destruct (resolveTheme W promise s) as [r s1]. simpl in *.
  destruct (IH s1) as (t2 & b2 & Htr2 & Hout2 & Hres2).
  destruct (promise_all (resolveTheme W <$> promises) s1) as [rs s2]. simpl in *.
  exists (t1 ++ t2), (b1 ++ b2). split_and!.
  - by eapply trace_seq.
  - by rewrite outline_app, Hout1, Hout2, fmap_app.
  - intros settled Hsettled.
    destruct r as [a|e]; [|discriminate Hsettled].
    destruct rs as [l|e]; [|discriminate Hsettled].
    injection Hsettled as <-.
    rewrite (Hres1 a eq_refl), (Hres2 l eq_refl). by destruct a.
Qed.

Lemma theme_cleanups_outline themeFiles t0 :
  Forall (λ w, noop_release w ∨ owns_file W w) themeFiles →
  ∃ t, trace (snd (promise_all (call_cleanup <$> themeFiles) t0)) = trace t0 ++ t
       ∧ outline t = EvCleanup <$> (path <$> themeFiles).
Proof.
  intros Hshape. revert t0.
  induction Hshape as [|w themeFiles Hw _ IH]; intros t0.
  { exists []. simpl. by rewrite app_nil_r. }
  rewrite fmap_cons. simpl.
  destruct (call_cleanup_outline w t0 Hw) as (t1 & Htr1 & Hout1).
  destruct (call_cleanup w t0) as [r s1]. simpl in Htr1.
  destruct (IH s1) as (t2 & Htr2 & Hout2).
  destruct (promise_all (call_cleanup <$> themeFiles) s1) as [rs s2]. simpl in *.
  exists (t1 ++ t2). split; [by eapply trace_seq|].
  by rewrite outline_app, Hout1, Hout2.
Qed.

(** The config build, whether it returns or throws: the theme work files
    built on the way, then the work file of the config if it returns; the
    cleanup of that work file releases the config and exactly those themes. *)
Lemma createConfigFile_outline target s :
  ∃ t built, trace (snd (createConfigFile W target s)) = trace s ++ t
    ∧ match fst (createConfigFile W target s) with
      | Ok conf =>
        outline t = (EvWorkFile <$> built) ++ [EvWorkFile (path conf)]
        ∧ ∀ t0, ∃ t', trace (snd (call_cleanup conf t0)) = trace t0 ++ t'
                      ∧ outline t' = EvCleanup (path conf) :: (EvCleanup <$> built)
      | Throw _ => outline t = EvWorkFile <$> built
      end.
Proof.
  unfold createConfigFile. erewrite bind_ok; [|reflexivity]. simpl nanoid_calls.
  fold (config_path W s). unfold marpCoreOptionForCLI.
  set (promises := loadStyles W (stylesRoot W (uri target))).
  destruct (resolve_outline promises (bump_nanoid s)) as (t1 & built & Htr1 & Hout1 & Hres1).
  pose proof (resolved_theme_files W promises (bump_nanoid s)) as Hshape.
  destruct (promise_all (resolveTheme W <$> promises) (bump_nanoid s))
    as [[settled|e] s1] eqn:Hall; simpl in Htr1, Hres1.
  2:{ erewrite bind_throw; [|erewrite bind_throw; [reflexivity|exact Hall]].
      exists t1, built. simpl. by split. }
  specialize (Hres1 settled eq_refl). subst built.
  specialize (Hshape settled s1 eq_refl).
  apply (Forall_impl _ (λ w, noop_release w ∨ owns_file W w)) in Hshape; [|by left].
  erewrite bind_ok; [|erewrite bind_ok; [reflexivity|exact Hall]].
  simpl vscode_themeFiles.
  destruct (writeFile_error W (config_path W s)) as [e|] eqn:Hw.
  { erewrite write_step_fail; [|exact Hw].
    eexists (t1 ++ [_]), _. simpl. split.
    - rewrite Htr1. by rewrite <- app_assoc.
    - by rewrite outline_app, Hout1, app_nil_r. }
  erewrite write_step_ok; [|exact Hw].
  eexists (t1 ++ [_; _]), _. simpl. split_and!.
  - rewrite Htr1. by rewrite <- !app_assoc.
  - by rewrite outline_app, Hout1.
  - intros t0. unfold call_cleanup at 1. unfold bind at 1. unfold modify at 1.
    simpl cleanup. simpl path. unfold config_cleanup. rewrite snd_bind_ret. simpl.
    destruct (promiseUnlink_effect W (config_path W s) (emit (EvCleanup (config_path W s)) t0))
      as (ok & Htr0 & _).
    destruct (promiseUnlink W (config_path W s) _) as [r0 s2]. simpl in Htr0.
    destruct (theme_cleanups_outline (omap id settled) s2 Hshape) as (t2 & Htr2 & Hout2).
    destruct (promise_all (call_cleanup <$> omap id settled) s2) as [rs s3].
    simpl in *.
    exists ([EvCleanup (config_path W s); EvUnlink (config_path W s) ok] ++ t2).
    split.
    + rewrite Htr2, Htr0. simpl. by rewrite <- !app_assoc.
    + rewrite outline_app, Hout2. done.
Qed.

(** The renderer call: one event, and the error of [runMarpCli_error]. *)
Lemma runMarpCli_outline argv s :
  ∃ chrome t, trace (snd (runMarpCli W argv s)) = trace s ++ t
    ∧ outline t = [EvMarpCli argv chrome]
    ∧ fst (runMarpCli W argv s)
      = match runMarpCli_error W argv with
        | Some e => Throw e
        | None => Ok tt
        end.
Proof.
  rewrite runMarpCli_unfold. cbv zeta. unfold runMarpCli_error.
  destruct (marpCli W argv) as [code|e]; simpl.
  - eexists _, [_]. split_and!; [done..|]. by case_bool_decide.
  - by eexists _, [_].
Qed.

End OutlineProofs.

Section OutlineAssembly.
Context (W : World).

(** The part of [doExport] inside its outer [try]. *)
Lemma export_inner_outline u document (proxyServer : option WorkspaceProxyServer)
    baseUrl s s0 :
  nanoid_calls s0 = nanoid_calls s →
  ∃ t,
    trace (snd
      ((let! input := createWorkFile W document in
        try_finally
          (try_catch
             (let! conf :=
                call_with_surplus (createConfigFile W) document
                  {| extra_allowLocalFiles := negb (bool_decide (is_Some proxyServer)) |} in
              try_finally
                (runMarpCli W [ArgArr ["-c"; path conf; path input; "-o"; fsPath u];
                               ArgOpts baseUrl];;
                 openExternal u)
                (not_awaited (call_cleanup conf)))
             (λ e, showErrorMessage (failure_message e)))
          (not_awaited (call_cleanup input))) s0))
    = trace s0 ++ t
    ∧ inner_outline W u document s baseUrl
        (fst
          ((let! input := createWorkFile W document in
            try_finally
              (try_catch
                 (let! conf :=
                    call_with_surplus (createConfigFile W) document
                      {| extra_allowLocalFiles := negb (bool_decide (is_Some proxyServer)) |} in
                  try_finally
                    (runMarpCli W [ArgArr ["-c"; path conf; path input; "-o"; fsPath u];
                                   ArgOpts baseUrl];;
                     openExternal u)
                    (not_awaited (call_cleanup conf)))
                 (λ e, showErrorMessage (failure_message e)))
              (not_awaited (call_cleanup input))) s0))
        (outline t).
Proof.
  intros Hids.
  pose proof (createWorkFile_result W document s0 s Hids) as Hsame.
  destruct (createWorkFile_outline W document s0) as (t0 & Htr0 & Hinput).
  destruct (createWorkFile W document s0) as [[input|e] s1] eqn:Hmat;
    simpl in Htr0, Hinput, Hsame.
  2:{ erewrite bind_throw; [|exact Hmat]. exists t0. simpl. split; [done|].
      rewrite Hinput. by constructor. }
  destruct Hinput as [Hout0 Hshape].
  erewrite bind_ok; [|exact Hmat].
  rewrite try_finally_not_awaited. unfold call_with_surplus. simpl.
  destruct (createConfigFile_outline W document s1) as (t1 & built & Htr1 & Hconf).
  unfold try_catch.
  destruct (createConfigFile W document s1) as [[conf|e] s2] eqn:Hbuild;
    simpl in Htr1, Hconf.
  - (* the config was built *)
    destruct Hconf as [Hout1 Hrelease].
    erewrite bind_ok; [|exact Hbuild].
    rewrite try_finally_not_awaited.
    fold (export_argv u (path conf) (path input) baseUrl).
    destruct (runMarpCli_outline W (export_argv u (path conf) (path input) baseUrl) s2)
      as (chrome & t2 & Htr2 & Hout2 & Hres2).
    destruct (runMarpCli W (export_argv u (path conf) (path input) baseUrl) s2)
      as [[[]|e] s3] eqn:Hrun; simpl in Htr2, Hres2;
      [rewrite !(bind_ok _ _ _ _ _ Hrun)|rewrite !(bind_throw _ _ _ _ _ Hrun)].
    + (* the renderer succeeded *)
      unfold openExternal, modify. simpl.
      destruct (Hrelease (emit (EvOpenExternal u) s3)) as (t3 & Htr3 & Hout3).
      destruct (call_cleanup_outline W input (snd (call_cleanup conf (emit (EvOpenExternal u) s3)))
                  Hshape) as (t4 & Htr4 & Hout4).
      exists (t0 ++ t1 ++ t2 ++ [EvOpenExternal u] ++ t3 ++ t4). split.
      * rewrite Htr4, Htr3. simpl. rewrite Htr2, Htr1, Htr0. by rewrite <- !app_assoc.
      * rewrite !outline_app, Hout0, Hout1, Hout2, Hout3, Hout4. simpl.
        rewrite <- ?app_assoc. simpl.
        apply io_exported; [done|].
        by destruct (runMarpCli_error W _).
    + (* the renderer failed *)
      simpl.
      destruct (Hrelease s3) as (t3 & Htr3 & Hout3).
      unfold showErrorMessage, modify. simpl.
      destruct (call_cleanup_outline W input
                  (emit (EvShowError (failure_message e)) (snd (call_cleanup conf s3)))
                  Hshape) as (t4 & Htr4 & Hout4).
      exists (t0 ++ t1 ++ t2 ++ t3 ++ [EvShowError (failure_message e)] ++ t4). split.
      * rewrite Htr4. simpl. rewrite Htr3, Htr2, Htr1, Htr0. by rewrite <- !app_assoc.
      * rewrite !outline_app, Hout0, Hout1, Hout2, Hout3, Hout4. simpl.
        rewrite <- ?app_assoc. simpl.
        apply io_render_failed; [done|].
        destruct (runMarpCli_error W _); congruence.
  - (* the config build threw *)
    erewrite bind_throw; [|exact Hbuild].
    unfold showErrorMessage, modify. simpl.
    destruct (call_cleanup_outline W input (emit (EvShowError (failure_message e)) s2) Hshape)
      as (t4 & Htr4 & Hout4).
    exists (t0 ++ t1 ++ [EvShowError (failure_message e)] ++ t4). split.
    + rewrite Htr4. simpl. rewrite Htr1, Htr0. by rewrite <- !app_assoc.
    + rewrite !outline_app, Hout0, Hconf, Hout4. simpl.
      rewrite <- ?app_assoc. simpl.
      by apply (io_config_failed W u document s baseUrl input built e).
Qed.

(** Every run of [doExport] follows one of the outlines. *)
Lemma doExport_outline u document s :
  ∃ t, trace (snd (doExport W u document s)) = trace s ++ t
    ∧ export_outline W u document s (fst (doExport W u document s)) (outline t).
Proof.
  unfold doExport.
  destruct (proxyWorkspaceFolder W u document) as [folder|] eqn:Hfolder.
  - unfold createWorkspaceProxyServer.
    destruct (proxy_bind W folder) as [port|e] eqn:Hbind.
    + erewrite bind_ok; [|reflexivity]. cbv beta.
      unfold try_finally.
      match goal with
      | |- context [bind (createWorkFile W document) ?k ?s0] =>
        destruct (export_inner_outline u document (Some {| port := port |})
                    (Some (proxy_baseUrl document port)) s s0 eq_refl)
          as (t & Htr & Hinner);
        change (trace (snd (bind (createWorkFile W document) k s0)) = trace s0 ++ t) in Htr;
        change (inner_outline W u document s (Some (proxy_baseUrl document port))
                  (fst (bind (createWorkFile W document) k s0)) (outline t)) in Hinner;
        set (run := bind (createWorkFile W document) k s0) in *;
        clearbody run; destruct run as [r s1]
      end.
      simpl in *.
      exists ([EvProxyCreate port] ++ t ++ [EvProxyDispose port]). split.
      * rewrite Htr. simpl. by rewrite <- !app_assoc.
      * rewrite !outline_app. by eapply eo_proxied.
    + exists []. simpl. rewrite app_nil_r. split; [done|]. by eapply eo_bind_failed.
  - erewrite bind_ok; [|reflexivity]. cbv beta.
    unfold try_finally.
    match goal with
    | |- context [bind (createWorkFile W document) ?k ?s0] =>
      destruct (export_inner_outline u document None None s s0 eq_refl)
        as (t & Htr & Hinner);
      change (trace (snd (bind (createWorkFile W document) k s0)) = trace s0 ++ t) in Htr;
      change (inner_outline W u document s None
                (fst (bind (createWorkFile W document) k s0)) (outline t)) in Hinner;
      set (run := bind (createWorkFile W document) k s0) in *;
      clearbody run; destruct run as [r s1]
    end.
    simpl in *. exists t. split; [done|]. by apply eo_direct.
Qed.

End OutlineAssembly.

(** *** Reading an outline *)

Lemma omap_outline {X} (f : Event → option X) t :
  (∀ ev, is_file_event ev = true → f ev = None) →
  omap f (outline t) = omap f t.
Proof.
  intros Hf. induction t as [|ev t IH]; [done|].
  simpl. destruct (is_file_event ev) eqn:Hev.
  - rewrite (Hf ev Hev). exact IH.
  - simpl. destruct (f ev); [f_equal|]; exact IH.
Qed.

Ltac by_file_event := intros [] Hev; first [discriminate Hev | reflexivity].

Lemma work_files_outline t : work_files (outline t) = work_files t.
Proof. apply omap_outline. by_file_event. Qed.

Lemma cleanup_calls_outline t : cleanup_calls (outline t) = cleanup_calls t.
Proof. apply omap_outline. by_file_event. Qed.

Lemma proxy_creations_outline t : proxy_creations (outline t) = proxy_creations t.
Proof. apply omap_outline. by_file_event. Qed.

Lemma proxy_disposals_outline t : proxy_disposals (outline t) = proxy_disposals t.
Proof. apply omap_outline. by_file_event. Qed.

Lemma opened_outline t : opened (outline t) = opened t.
Proof. apply omap_outline. by_file_event. Qed.

Lemma shown_errors_outline t : shown_errors (outline t) = shown_errors t.
Proof. apply omap_outline. by_file_event. Qed.

Lemma renderer_calls_outline t : renderer_calls (outline t) = renderer_calls t.
Proof. apply omap_outline. by_file_event. Qed.

Lemma opened_app t1 t2 : opened (t1 ++ t2) = opened t1 ++ opened t2.
Proof. unfold opened. apply omap_app. Qed.

Lemma shown_errors_app t1 t2 : shown_errors (t1 ++ t2) = shown_errors t1 ++ shown_errors t2.
Proof. unfold shown_errors. apply omap_app. Qed.

Lemma renderer_calls_app t1 t2 :
  renderer_calls (t1 ++ t2) = renderer_calls t1 ++ renderer_calls t2.
Proof. unfold renderer_calls. apply omap_app. Qed.

Lemma opened_built l : opened (EvWorkFile <$> l) = [].
Proof. by apply omap_fmap_none. Qed.

Lemma opened_cleaned l : opened (EvCleanup <$> l) = [].
Proof. by apply omap_fmap_none. Qed.

Lemma shown_errors_built l : shown_errors (EvWorkFile <$> l) = [].
Proof. by apply omap_fmap_none. Qed.

Lemma shown_errors_cleaned l : shown_errors (EvCleanup <$> l) = [].
Proof. by apply omap_fmap_none. Qed.

Lemma renderer_calls_built l : renderer_calls (EvWorkFile <$> l) = [].
Proof. by apply omap_fmap_none. Qed.

Lemma renderer_calls_cleaned l : renderer_calls (EvCleanup <$> l) = [].
Proof. by apply omap_fmap_none. Qed.

(** Computes the projections of an outline given by its parts. *)
Ltac read_outline :=
  rewrite ?work_files_app, ?cleanup_calls_app, ?proxy_creations_app,
    ?proxy_disposals_app, ?opened_app, ?shown_errors_app, ?renderer_calls_app;
  rewrite ?work_files_built, ?work_files_cleaned, ?cleanup_calls_built,
    ?cleanup_calls_cleaned, ?proxy_creations_built, ?proxy_creations_cleaned,
    ?proxy_disposals_built, ?proxy_disposals_cleaned, ?opened_built, ?opened_cleaned,
    ?shown_errors_built, ?shown_errors_cleaned, ?renderer_calls_built,
    ?renderer_calls_cleaned;
  simpl; rewrite ?app_nil_r.

Section ExportOutcomes.
Context (W : World).

(** X6. [doExport] rejects in two cases only: the proxy server cannot bind,
    or the document cannot be materialized; it then rejects with that error.
    A failure of the config build or of the renderer never leaves
    [doExport]. *)
Theorem doExport_rejects_iff u document s e :
  fst (doExport W u document s) = Throw e
  ↔ (∃ folder, proxyWorkspaceFolder W u document = Some folder
               ∧ proxy_bind W folder = inr e)
    ∨ ((∀ folder, proxyWorkspaceFolder W u document = Some folder →
                  ∃ port, proxy_bind W folder = inl port)
       ∧ fst (createWorkFile W document s) = Throw e).
Proof.
  destruct (doExport_outline W u document s) as (t & _ & Hout).
  destruct (fst (doExport W u document s)) as [[]|e'].
  - split; [done|]. intros [(folder & Hfolder & Hbind)|[Hbinds Hmat]].
    + inversion Hout; congruence.
    + inversion Hout as [| ? ? ? ? _ _ Hinner|? ? _ Hinner]; subst;
        inversion Hinner; congruence.
  - split.
    + intros [= ->].
      inversion Hout as [folder e0 Hfolder Hbind|folder port r inner Hfolder Hbind Hinner
                        |r inner Hfolder Hinner]; subst.
      * left. by exists folder.
      * right. split.
        -- intros folder' Hfolder'. exists port. congruence.
        -- by inversion Hinner.
      * right. split; [congruence|]. by inversion Hinner.
    + intros [(folder & Hfolder & Hbind)|[Hbinds Hmat]].
      * inversion Hout; congruence.
      * inversion Hout as [folder e0 Hfolder Hbind| ? ? ? ? _ _ Hinner|? ? _ Hinner]; subst.
        -- destruct (Hbinds folder Hfolder) as [port Hport]. congruence.
        -- inversion Hinner; congruence.
        -- inversion Hinner; congruence.
Qed.

(** X7. A [doExport] that resolves ends in exactly one of two ways: the
    target was opened with [env.openExternal] and no error was shown, or one
    error message was shown and nothing was opened.  A [doExport] that rejects
    opens nothing and shows no message of its own. *)
Theorem doExport_one_outcome u document s :
  ∃ t, trace (snd (doExport W u document s)) = trace s ++ t
    ∧ (fst (doExport W u document s) = Ok tt →
       (opened t = [u] ∧ shown_errors t = [])
       ∨ (opened t = [] ∧ ∃ msg, shown_errors t = [msg]))
    ∧ (∀ e, fst (doExport W u document s) = Throw e →
       opened t = [] ∧ shown_errors t = []).
Proof.
  destruct (doExport_outline W u document s) as (t & Htr & Hout).
  exists t. split; [done|].
  rewrite <- (opened_outline t), <- (shown_errors_outline t).
  assert (Hinner : ∀ baseUrl r inner,
    inner_outline W u document s baseUrl r inner →
    match r with
    | Ok _ => (opened inner = [u] ∧ shown_errors inner = [])
              ∨ (opened inner = [] ∧ ∃ msg, shown_errors inner = [msg])
    | Throw _ => opened inner = [] ∧ shown_errors inner = []
    end).
  { intros baseUrl r inner Hinner. destruct Hinner; read_outline.
    - done.
    - right. split; [done|]. by eexists.
    - by left.
    - right. split; [done|]. by eexists. }
  destruct Hout as [folder e Hfolder Hbind|folder port r inner Hfolder Hbind Hin
                   |r inner Hfolder Hin].
  - split; [done|]. by intros ? _.
  - specialize (Hinner _ _ _ Hin). read_outline.
    destruct r as [[]|e]; split; try done; by intros ? _.
  - specialize (Hinner _ _ _ Hin).
    destruct r as [[]|e]; split; try done; by intros ? _.
Qed.

End ExportOutcomes.

(** A list with one marked element splits around it in one way only. *)
Lemma split_at_marked {X} (P : X → bool) (l1 l2 A B : list X) x y :
  P x = true → P y = true →
  Forall (λ a, P a = false) A → Forall (λ b, P b = false) B →
  l1 ++ x :: l2 = A ++ y :: B →
  l1 = A ∧ x = y ∧ l2 = B.
Proof.
  intros Hx Hy HA HB. revert l1.
  induction HA as [|a A Ha _ IH]; intros [|z l1] Heq; simpl in Heq.
  - by injection Heq as -> ->.
  - injection Heq as -> Heq. subst B.
    apply Forall_app in HB as [_ HB]. apply Forall_cons in HB as [HB _]. congruence.
  - injection Heq as -> _. congruence.
  - injection Heq as -> Heq. destruct (IH _ Heq) as (-> & -> & ->). done.
Qed.

Lemma Forall_not_renderer_built l :
  Forall (λ ev, is_renderer_call ev = false) (EvWorkFile <$> l).
Proof. apply Forall_fmap, Forall_true. done. Qed.

Lemma Forall_not_renderer_cleaned l :
  Forall (λ ev, is_renderer_call ev = false) (EvCleanup <$> l).
Proof. apply Forall_fmap, Forall_true. done. Qed.

Lemma outline_renderer_call ev : is_renderer_call ev = true → is_file_event ev = false.
Proof. by destruct ev. Qed.

Lemma outline_split t t1 t2 ev :
  t = t1 ++ ev :: t2 → is_renderer_call ev = true →
  outline t = outline t1 ++ ev :: outline t2.
Proof.
  intros -> Hev. rewrite outline_app. simpl.
  by rewrite (outline_renderer_call ev Hev).
Qed.

Section ExportOrder.
Context (W : World).

(** The inner outline around its renderer call, if it has one. *)
Lemma inner_outline_anatomy u document s baseUrl r inner :
  inner_outline W u document s baseUrl r inner →
  (renderer_calls inner = []
   ∧ Forall (λ ev, is_renderer_call ev = false) inner)
  ∨ ∃ acquired released conf input chrome,
      inner = acquired ++ EvMarpCli (export_argv u conf input baseUrl) chrome :: released
      ∧ Forall (λ ev, is_renderer_call ev = false) acquired
      ∧ Forall (λ ev, is_renderer_call ev = false) released
      ∧ cleanup_calls acquired = [] ∧ proxy_disposals acquired = []
      ∧ proxy_creations acquired = []
      ∧ work_files released = [] ∧ proxy_creations released = []
      ∧ proxy_disposals released = []
      ∧ conf ∈ work_files acquired ∧ input ∈ work_files acquired
      ∧ match runMarpCli_error W (export_argv u conf input baseUrl) with
        | None => opened released = [u] ∧ shown_errors released = []
        | Some e => opened released = [] ∧ shown_errors released = [failure_message e]
        end
      ∧ opened acquired = [] ∧ shown_errors acquired = [].
Proof.
  intros Hinner.
  destruct Hinner as [e Hmat|input built e Hmat|input themes conf chrome Hmat Herr
                     |input themes conf chrome e Hmat Herr].
  - left. split; [done|constructor].
  - left. split; [by read_outline|].
    constructor; [done|]. apply Forall_app. split; [apply Forall_not_renderer_built|].
    by repeat constructor.
  - right.
    exists ([EvWorkFile (path input)] ++ (EvWorkFile <$> themes) ++ [EvWorkFile conf]),
      ([EvOpenExternal u; EvCleanup conf] ++ (EvCleanup <$> themes)
       ++ [EvCleanup (path input)]),
      conf, (path input), chrome.
    rewrite Herr. split_and!; read_outline; try done.
    + by rewrite <- !app_assoc.
    + constructor; [done|]. apply Forall_app. split; [apply Forall_not_renderer_built|].
      by repeat constructor.
    + constructor; [done|]. constructor; [done|]. apply Forall_app.
      split; [apply Forall_not_renderer_cleaned|]. by repeat constructor.
    + apply list_elem_of_further, elem_of_app. right. apply list_elem_of_here.
    + apply list_elem_of_here.
  - right.
    exists ([EvWorkFile (path input)] ++ (EvWorkFile <$> themes) ++ [EvWorkFile conf]),
      ([EvCleanup conf] ++ (EvCleanup <$> themes)
       ++ [EvShowError (failure_message e); EvCleanup (path input)]),
      conf, (path input), chrome.
    rewrite Herr. split_and!; read_outline; try done.
    + by rewrite <- !app_assoc.
    + constructor; [done|]. apply Forall_app. split; [apply Forall_not_renderer_built|].
      by repeat constructor.
    + constructor; [done|]. apply Forall_app.
      split; [apply Forall_not_renderer_cleaned|]. by repeat constructor.
    + apply list_elem_of_further, elem_of_app. right. apply list_elem_of_here.
    + apply list_elem_of_here.
Qed.

End ExportOrder.

Lemma renderer_calls_none l :
  Forall (λ ev, is_renderer_call ev = false) l → renderer_calls l = [].
Proof.
  induction 1 as [|ev l Hev _ IH]; [done|].
  unfold renderer_calls in *. destruct ev; simpl; try done.
Qed.

Section ExportAnatomy.
Context (W : World).

(** A whole outline around its renderer call, if it has one: before the
    call resources are acquired only, after it they are released only. *)
Lemma export_outline_anatomy u document s r full :
  export_outline W u document s r full →
  (renderer_calls full = [] ∧ Forall (λ ev, is_renderer_call ev = false) full)
  ∨ ∃ acquired released conf input chrome baseUrl,
      full = acquired ++ EvMarpCli (export_argv u conf input baseUrl) chrome :: released
      ∧ Forall (λ ev, is_renderer_call ev = false) acquired
      ∧ Forall (λ ev, is_renderer_call ev = false) released
      ∧ cleanup_calls acquired = [] ∧ proxy_disposals acquired = []
      ∧ work_files released = [] ∧ proxy_creations released = []
      ∧ conf ∈ work_files acquired ∧ input ∈ work_files acquired
      ∧ ((proxy_creations acquired = [] ∧ baseUrl = None)
         ∨ ∃ port, proxy_creations acquired = [port]
                   ∧ baseUrl = Some (proxy_baseUrl document port))
      ∧ match runMarpCli_error W (export_argv u conf input baseUrl) with
        | None => opened full = [u] ∧ shown_errors full = []
        | Some e => opened full = [] ∧ shown_errors full = [failure_message e]
        end.
Proof.
  intros Hout.
  destruct Hout as [folder e Hfolder Hbind|folder port r inner Hfolder Hbind Hin
                   |r inner Hfolder Hin].
  - left. split; [done|constructor].
  - destruct (inner_outline_anatomy W _ _ _ _ _ _ Hin)
      as [[Hnone Hall]|(acquired & released & conf & input & chrome & -> & Ha & Hr
                        & Hca & Hda & Hpa & Hwr & Hpr & Hdr & Hconf & Hinput & Hres & Hoa & Hsa)].
    + left. split.
      * read_outline. by rewrite Hnone.
      * constructor; [done|]. apply Forall_app. split; [done|]. by repeat constructor.
    + right.
      exists ([EvProxyCreate port] ++ acquired), (released ++ [EvProxyDispose port]),
        conf, input, chrome, (Some (proxy_baseUrl document port)).
      split_and!.
      * simpl. by rewrite <- app_assoc.
      * by constructor.
      * apply Forall_app. split; [done|]. by repeat constructor.
      * by read_outline.
      * by read_outline.
      * read_outline. by rewrite Hwr.
      * read_outline. by rewrite Hpr.
      * by read_outline.
      * by read_outline.
      * right. exists port. split; [|done]. read_outline. by rewrite Hpa.
      * destruct (runMarpCli_error W _); destruct Hres as [Ho Hs]; read_outline;
          by rewrite Hoa, Hsa, Ho, Hs.
  - destruct (inner_outline_anatomy W _ _ _ _ _ _ Hin)
      as [[Hnone Hall]|(acquired & released & conf & input & chrome & -> & Ha & Hr
                        & Hca & Hda & Hpa & Hwr & Hpr & Hdr & Hconf & Hinput & Hres & Hoa & Hsa)].
    + left. by split.
    + right. exists acquired, released, conf, input, chrome, None.
      split_and!; try done.
      * by left.
      * destruct (runMarpCli_error W _); destruct Hres as [Ho Hs]; read_outline;
          by rewrite Hoa, Hsa, Ho, Hs.
Qed.

(** X8. [doExport] calls the renderer at most once.  The call has the
    arguments [-c conf input -o target], where [conf] and [input] are work
    files built in this export and [target] is the file system path of the
    export target, and an options object whose [baseUrl] is set exactly when
    a proxy server was created: it then is
    [http://127.0.0.1:<port><path of the document's uri>]. *)
Theorem doExport_renderer_call u document s :
  ∃ t, trace (snd (doExport W u document s)) = trace s ++ t
    ∧ (renderer_calls t = []
       ∨ ∃ conf input baseUrl,
           renderer_calls t = [[ArgArr ["-c"; conf; input; "-o"; fsPath u];
                                ArgOpts baseUrl]]
           ∧ conf ∈ work_files t ∧ input ∈ work_files t
           ∧ ((proxy_creations t = [] ∧ baseUrl = None)
              ∨ ∃ port, proxy_creations t = [port]
                 ∧ baseUrl = Some ("http://127.0.0.1:" +:+ pretty port
                                   +:+ uri_path (uri document)))).
Proof.
  destruct (doExport_outline W u document s) as (t & Htr & Hout).
  exists t. split; [done|].
  rewrite <- (renderer_calls_outline t), <- (work_files_outline t),
    <- (proxy_creations_outline t).
  destruct (export_outline_anatomy _ _ _ _ _ Hout)
    as [[Hnone _]|(acquired & released & conf & input & chrome & baseUrl & -> & Ha & Hr
                   & _ & _ & Hwr & Hpr & Hconf & Hinput & Hproxy & _)].
  - by left.
  - right. exists conf, input, baseUrl.
    rewrite renderer_calls_app, work_files_app, proxy_creations_app.
    rewrite (renderer_calls_none acquired Ha). simpl.
    change (renderer_calls (EvMarpCli (export_argv u conf input baseUrl) chrome :: released))
      with (export_argv u conf input baseUrl :: renderer_calls released).
    change (work_files (EvMarpCli (export_argv u conf input baseUrl) chrome :: released))
      with (work_files released).
    change (proxy_creations (EvMarpCli (export_argv u conf input baseUrl) chrome :: released))
      with (proxy_creations released).
    rewrite (renderer_calls_none released Hr), Hwr, Hpr, !app_nil_r.
    split_and!; done.
Qed.

(** X9. While the renderer runs, everything it needs is still there: in
    the events before the renderer call no cleanup was called and no proxy
    server disposed of, and after the call no work file is built and no proxy
    server created.  The renderer is not called a second time. *)
Theorem doExport_resources_outlive_renderer u document s :
  ∃ t, trace (snd (doExport W u document s)) = trace s ++ t
    ∧ ∀ before after argv chrome,
        t = before ++ EvMarpCli argv chrome :: after →
        cleanup_calls before = [] ∧ proxy_disposals before = []
        ∧ work_files after = [] ∧ proxy_creations after = []
        ∧ renderer_calls before = [] ∧ renderer_calls after = [].
Proof.
  destruct (doExport_outline W u document s) as (t & Htr & Hout).
  exists t. split; [done|].
  intros before after argv chrome Ht.
  pose proof (outline_split t before after _ Ht eq_refl) as Hsplit.
  destruct (export_outline_anatomy _ _ _ _ _ Hout)
    as [[_ Hnone]|(acquired & released & conf & input & chrome' & baseUrl & Hfull & Ha & Hr
                   & Hca & Hda & Hwr & Hpr & _)].
  - rewrite Hsplit in Hnone. apply Forall_app in Hnone as [_ Hnone].
    apply Forall_cons in Hnone as [Hnone _]. discriminate Hnone.
  - rewrite Hsplit in Hfull.
    destruct (split_at_marked is_renderer_call _ _ _ _
                (EvMarpCli argv chrome) (EvMarpCli _ chrome') eq_refl eq_refl Ha Hr Hfull)
      as (Hbefore & _ & Hafter).
    rewrite <- (cleanup_calls_outline before), <- (proxy_disposals_outline before),
      <- (work_files_outline after), <- (proxy_creations_outline after),
      <- (renderer_calls_outline before), <- (renderer_calls_outline after).
    rewrite Hbefore, Hafter.
    split_and!; try done; by apply renderer_calls_none.
Qed.

(** X10. What the user gets after a renderer call depends on the renderer
    alone.  Exit code 0: the target is opened and no error is shown.  Another
    exit code: nothing is opened and the one message shown ends with that
    code.  A thrown error: nothing is opened and the one message shown is built
    from the error, which for the missing-browser error is the installation
    hint. *)
Theorem doExport_reports_renderer_outcome u document s :
  ∃ t, trace (snd (doExport W u document s)) = trace s ++ t
    ∧ ∀ argv, argv ∈ renderer_calls t →
        match marpCli W argv with
        | Exit code =>
          if bool_decide (code = 0)
          then opened t = [u] ∧ shown_errors t = []
          else opened t = []
               ∧ shown_errors t
                 = ["Failure to export. Marp CLI throwed unexpected error with exit code "
                    +:+ pretty code +:+ "."]
        | RendererThrows e =>
          opened t = []
          ∧ shown_errors t
            = [if is_NOT_FOUND_CHROMIUM W e
               then "Failure to export. " +:+ install_message W
               else failure_message e]
        end.
Proof.
  destruct (doExport_outline W u document s) as (t & Htr & Hout).
  exists t. split; [done|].
  rewrite <- (renderer_calls_outline t), <- (opened_outline t), <- (shown_errors_outline t).
  intros argv Hin.
  destruct (export_outline_anatomy _ _ _ _ _ Hout)
    as [[Hnone _]|(acquired & released & conf & input & chrome & baseUrl & Hfull & Ha & Hr
                   & _ & _ & _ & _ & _ & _ & _ & Hres)].
  { rewrite Hnone in Hin. by apply elem_of_nil in Hin. }
  assert (argv = export_argv u conf input baseUrl) as ->.
  { rewrite Hfull, renderer_calls_app, (renderer_calls_none acquired Ha) in Hin.
    change (renderer_calls (EvMarpCli (export_argv u conf input baseUrl) chrome :: released))
      with (export_argv u conf input baseUrl :: renderer_calls released) in Hin.
    rewrite (renderer_calls_none released Hr) in Hin.
    by apply list_elem_of_singleton in Hin. }
  unfold runMarpCli_error in Hres.
  destruct (marpCli W (export_argv u conf input baseUrl)) as [code|e].
  - by repeat case_bool_decide.
  - by destruct (is_NOT_FOUND_CHROMIUM W e).
Qed.

(** The books of an outline. *)
Lemma export_outline_books u document s r full :
  export_outline W u document s r full →
  ∃ leaked,
    work_files full ≡ₚ cleanup_calls full ++ leaked
    ∧ proxy_disposals full = proxy_creations full
    ∧ (length (proxy_creations full) ≤ 1)%nat
    ∧ (leaked ≠ [] →
       r = Ok tt ∧ renderer_calls full = [] ∧ opened full = []
       ∧ ∃ msg, shown_errors full = [msg]).
Proof.
  assert (Hinner : ∀ baseUrl r inner,
    inner_outline W u document s baseUrl r inner →
    ∃ leaked, work_files inner ≡ₚ cleanup_calls inner ++ leaked
      ∧ proxy_disposals inner = [] ∧ proxy_creations inner = []
      ∧ (leaked ≠ [] →
         r = Ok tt ∧ renderer_calls inner = [] ∧ opened inner = []
         ∧ ∃ msg, shown_errors inner = [msg])).
  { intros baseUrl r0 inner Hin.
    destruct Hin as [e Hmat|input built e Hmat|input themes conf chrome Hmat Herr
                    |input themes conf chrome e Hmat Herr].
    - exists []. by split_and!.
    - exists built. read_outline. split_and!; try done.
      intros _. split_and!; try done. by eexists.
    - exists []. read_outline. split_and!; try done.
      rewrite (Permutation_app_comm themes [path input]),
        (Permutation_app_comm themes [conf]).
      simpl. apply perm_swap.
    - exists []. read_outline. split_and!; try done.
      rewrite (Permutation_app_comm themes [path input]),
        (Permutation_app_comm themes [conf]).
      simpl. apply perm_swap. }
  intros Hout.
  destruct Hout as [folder e Hfolder Hbind|folder port r inner Hfolder Hbind Hin
                   |r inner Hfolder Hin].
  - exists []. split_and!; try done; simpl; lia.
  - destruct (Hinner _ _ _ Hin) as (leaked & Hperm & Hd & Hc & Hleak).
    exists leaked. read_outline. rewrite ?Hd, ?Hc. by split_and!.
  - destruct (Hinner _ _ _ Hin) as (leaked & Hperm & Hd & Hc & Hleak).
    exists leaked. rewrite Hd, Hc. split_and!; try done; simpl; lia.
Qed.

(** X11. The books of every export, also of one that fails: each cleanup
    call is for a work file built in this export, no work file is cleaned
    up twice, and a proxy server that was created is disposed of once.  Work
    files are left without cleanup only in an export that resolves with an
    error message and never starts the renderer. *)
Theorem doExport_books u document s :
  ∃ t leaked,
    trace (snd (doExport W u document s)) = trace s ++ t
    ∧ work_files t ≡ₚ cleanup_calls t ++ leaked
    ∧ proxy_disposals t = proxy_creations t
    ∧ (length (proxy_creations t) ≤ 1)%nat
    ∧ (leaked ≠ [] →
       fst (doExport W u document s) = Ok tt
       ∧ renderer_calls t = []
       ∧ opened t = []
       ∧ ∃ msg, shown_errors t = [msg]).
Proof.
  destruct (doExport_outline W u document s) as (t & Htr & Hout).
  destruct (export_outline_books _ _ _ _ _ Hout) as (leaked & Hbooks).
  exists t, leaked. split; [done|].
  by rewrite <- (work_files_outline t), <- (cleanup_calls_outline t),
    <- (proxy_disposals_outline t), <- (proxy_creations_outline t),
    <- (renderer_calls_outline t), <- (opened_outline t), <- (shown_errors_outline t).
Qed.

End ExportAnatomy.

(** *** The files of an export *)

Lemma file_steps_app t1 t2 : file_steps (t1 ++ t2) = file_steps t1 ++ file_steps t2.
Proof. unfold file_steps. apply omap_app. Qed.

Lemma file_steps_built l : file_steps (EvWorkFile <$> l) = [].
Proof. by apply omap_fmap_none. Qed.

Lemma file_steps_cleaned l : file_steps (EvCleanup <$> l) = [].
Proof. by apply omap_fmap_none. Qed.

Section FileProofs.
Context (W : World).

(** The document is written once, at the location that took it, or not at
    all; the cleanup of the work file asks for the deletion of what was
    written. *)
Lemma createWorkFile_files doc s :
  ∃ t files,
    trace (snd (createWorkFile W doc s)) = trace s ++ t
    ∧ (length files ≤ 1)%nat
    ∧ match fst (createWorkFile W doc s) with
      | Ok input =>
        file_steps t = Wrote <$> files
        ∧ ∀ s0, ∃ t', trace (snd (call_cleanup input s0)) = trace s0 ++ t'
                      ∧ file_steps t' = Unlinking <$> files
      | Throw _ => file_steps t = []
      end.
Proof.
  assert (Hunlink : ∀ p s0, ∃ t',
    trace (snd (promiseUnlink W p (emit (EvCleanup p) s0))) = trace s0 ++ t'
    ∧ file_steps t' = [Unlinking p]).
  { intros p s0.
    destruct (promiseUnlink_effect W p (emit (EvCleanup p) s0)) as (ok & Htr & _).
    exists [EvCleanup p; EvUnlink p ok]. split; [|done].
    rewrite Htr. simpl. by rewrite <- app_assoc. }
  unfold createWorkFile.
  destruct (bool_decide (scheme (uri doc) = "file") && negb (isDirty doc)).
  { exists [EvWorkFile (fsPath (uri doc))], []. simpl. split_and!; [done|lia|done|].
    intros s0. by exists [EvCleanup (fsPath (uri doc))]. }
  unfold bind, try_catch, nanoid, promiseWriteFile, new_WorkFile, modify, ret,
    createCleanup.
  simpl.
  repeat match goal with
  | |- context [writeFile_error W ?p] => destruct (writeFile_error W p); simpl
  | |- context [getWorkspaceFolder W ?u] => destruct (getWorkspaceFolder W u); simpl
  | |- context [bool_decide ?P] => destruct (bool_decide P); simpl
  end.
  all: try (eexists _, []; (split; [rewrite <- ?app_assoc; reflexivity|]);
            (split; [simpl; lia|]); reflexivity).
  all: eexists _, [_]; (split; [rewrite <- ?app_assoc; reflexivity|]);
         (split; [simpl; lia|]); (split; [reflexivity|]); apply Hunlink.
Qed.

(** The config file is the one file [createConfigFile] writes, and it writes
    it exactly when it returns; the cleanup of the work file asks for the
    deletion of the config file and of no other file. *)
Lemma createConfigFile_files target s :
  ∃ t,
    trace (snd (createConfigFile W target s)) = trace s ++ t
    ∧ match fst (createConfigFile W target s) with
      | Ok conf =>
        file_steps t = [Wrote (path conf)]
        ∧ ∀ s0, ∃ t', trace (snd (call_cleanup conf s0)) = trace s0 ++ t'
                      ∧ file_steps t' = [Unlinking (path conf)]
      | Throw _ => file_steps t = []
      end.
Proof.
  unfold createConfigFile. erewrite bind_ok; [|reflexivity]. simpl nanoid_calls.
  fold (config_path W s). unfold marpCoreOptionForCLI.
  set (promises := loadStyles W (stylesRoot W (uri target))).
  destruct (resolve_all_state W promises (bump_nanoid s)) as (_ & _ & _ & _ & Htr1).
  set (t1 := EvWorkFile <$> (theme_path <$> local_themes promises)) in Htr1.
  assert (Hsteps1 : file_steps t1 = []) by apply file_steps_built.
  clearbody t1.
  pose proof (resolved_theme_files W promises (bump_nanoid s)) as Hnoop.
  destruct (promise_all (resolveTheme W <$> promises) (bump_nanoid s))
    as [[settled|e] s1] eqn:Hall; simpl in Htr1.
  2:{ erewrite bind_throw; [|erewrite bind_throw; [reflexivity|exact Hall]].
      exists t1. by split. }
  specialize (Hnoop settled s1 eq_refl).
  erewrite bind_ok; [|erewrite bind_ok; [reflexivity|exact Hall]].
  simpl vscode_themeFiles.
  destruct (writeFile_error W (config_path W s)) as [e|] eqn:Hw.
  { erewrite write_step_fail; [|exact Hw].
    eexists (t1 ++ [_]). simpl. split.
    - rewrite Htr1. by rewrite <- app_assoc.
    - by rewrite file_steps_app, Hsteps1. }
  erewrite write_step_ok; [|exact Hw].
  eexists (t1 ++ [_; _]). simpl. split_and!.
  - rewrite Htr1. by rewrite <- !app_assoc.
  - by rewrite file_steps_app, Hsteps1.
  - intros s0. unfold call_cleanup at 1. unfold bind at 1. unfold modify at 1.
    simpl cleanup. simpl path. unfold config_cleanup. rewrite snd_bind_ret. simpl.
    destruct (promiseUnlink_effect W (config_path W s) (emit (EvCleanup (config_path W s)) s0))
      as (ok & Htr0 & _).
    destruct (promiseUnlink W (config_path W s) _) as [r0 s2]. simpl in Htr0.
    rewrite (theme_cleanups (omap id settled) s2 Hnoop). simpl.
    exists ([EvCleanup (config_path W s); EvUnlink (config_path W s) ok]
            ++ (EvCleanup <$> (path <$> omap id settled))).
    split.
    + rewrite Htr0. simpl. by rewrite <- !app_assoc.
    + by rewrite file_steps_app, file_steps_cleaned.
Qed.

Lemma runMarpCli_files argv s :
  ∃ t, trace (snd (runMarpCli W argv s)) = trace s ++ t ∧ file_steps t = [Rendered].
Proof.
  rewrite runMarpCli_unfold. cbv zeta.
  destruct (marpCli W argv) as [code|e]; by eexists [_].
Qed.

(** The part of [doExport] inside its outer [try]. *)
Lemma export_inner_files u document (proxyServer : option WorkspaceProxyServer)
    baseUrl s0 :
  ∃ t files rendered,
    trace (snd
      ((let! input := createWorkFile W document in
        try_finally
          (try_catch
             (let! conf :=
                call_with_surplus (createConfigFile W) document
                  {| extra_allowLocalFiles := negb (bool_decide (is_Some proxyServer)) |} in
              try_finally
                (runMarpCli W [ArgArr ["-c"; path conf; path input; "-o"; fsPath u];
                               ArgOpts baseUrl];;
                 openExternal u)
                (not_awaited (call_cleanup conf)))
             (λ e, showErrorMessage (failure_message e)))
          (not_awaited (call_cleanup input))) s0))
    = trace s0 ++ t
    ∧ file_steps t = (Wrote <$> files) ++ rendered ++ (Unlinking <$> reverse files)
    ∧ (length files ≤ 2)%nat
    ∧ (rendered = [] ∨ rendered = [Rendered]).
Proof.
  destruct (createWorkFile_files document s0) as (t0 & files0 & Htr0 & Hlen0 & Hinput).
  destruct (createWorkFile W document s0) as [[input|e] s1] eqn:Hmat;
    simpl in Htr0, Hinput.
  2:{ erewrite bind_throw; [|exact Hmat]. exists t0, [], []. simpl.
      split_and!; [done|done|lia|by left]. }
  destruct Hinput as [Hsteps0 Hrelease0].
  assert (Hrev : reverse files0 = files0).
  { destruct files0 as [|p [|q files0]]; [done|done|simpl in Hlen0; lia]. }
  erewrite bind_ok; [|exact Hmat].
  rewrite try_finally_not_awaited. unfold call_with_surplus. simpl.
  destruct (createConfigFile_files document s1) as (t1 & Htr1 & Hconf).
  unfold try_catch.
  destruct (createConfigFile W document s1) as [[conf|e] s2] eqn:Hbuild;
    simpl in Htr1, Hconf.
  - (* the config was built *)
    destruct Hconf as [Hsteps1 Hrelease1].
    erewrite bind_ok; [|exact Hbuild].
    rewrite try_finally_not_awaited.
    fold (export_argv u (path conf) (path input) baseUrl).
    destruct (runMarpCli_files (export_argv u (path conf) (path input) baseUrl) s2)
      as (t2 & Htr2 & Hsteps2).
    destruct (runMarpCli W (export_argv u (path conf) (path input) baseUrl) s2)
      as [[[]|e] s3] eqn:Hrun; simpl in Htr2;
      [rewrite !(bind_ok _ _ _ _ _ Hrun)|rewrite !(bind_throw _ _ _ _ _ Hrun)].
    + (* the renderer succeeded *)
      unfold openExternal, modify. simpl.
      destruct (Hrelease1 (emit (EvOpenExternal u) s3)) as (t3 & Htr3 & Hsteps3).
      destruct (Hrelease0 (snd (call_cleanup conf (emit (EvOpenExternal u) s3))))
        as (t4 & Htr4 & Hsteps4).
      exists (t0 ++ t1 ++ t2 ++ [EvOpenExternal u] ++ t3 ++ t4),
        (files0 ++ [path conf]), [Rendered].
      split_and!.
      * rewrite Htr4, Htr3. simpl. rewrite Htr2, Htr1, Htr0. by rewrite <- !app_assoc.
      * rewrite !file_steps_app, Hsteps0, Hsteps1, Hsteps2, Hsteps3, Hsteps4.
        rewrite reverse_app, !fmap_app, Hrev. simpl. by rewrite <- !app_assoc.
      * rewrite length_app. simpl. lia.
      * by right.
    + (* the renderer failed *)
      simpl.
      destruct (Hrelease1 s3) as (t3 & Htr3 & Hsteps3).
      unfold showErrorMessage, modify. simpl.
      destruct (Hrelease0 (emit (EvShowError (failure_message e))
                             (snd (call_cleanup conf s3))))
        as (t4 & Htr4 & Hsteps4).
      exists (t0 ++ t1 ++ t2 ++ t3 ++ [EvShowError (failure_message e)] ++ t4),
        (files0 ++ [path conf]), [Rendered].
      split_and!.
      * rewrite Htr4. simpl. rewrite Htr3, Htr2, Htr1, Htr0. by rewrite <- !app_assoc.
      * rewrite !file_steps_app, Hsteps0, Hsteps1, Hsteps2, Hsteps3, Hsteps4.
        rewrite reverse_app, !fmap_app, Hrev. simpl. by rewrite <- !app_assoc.
      * rewrite length_app. simpl. lia.
      * by right.
  - (* the config build threw *)
    erewrite bind_throw; [|exact Hbuild].
    unfold showErrorMessage, modify. simpl.
    destruct (Hrelease0 (emit (EvShowError (failure_message e)) s2))
      as (t4 & Htr4 & Hsteps4).
    exists (t0 ++ t1 ++ [EvShowError (failure_message e)] ++ t4), files0, [].
    split_and!.
    + rewrite Htr4. simpl. rewrite Htr1, Htr0. by rewrite <- !app_assoc.
    + by rewrite !file_steps_app, Hsteps0, Hconf, Hsteps4, Hrev.
    + lia.
    + by left.
Qed.

(** X12. An export asks for the deletion of exactly the files it wrote, each
    once: it writes at most two files (the temp copy of the document and the
    config file), every write comes before the renderer call, if there is
    one, and every request to delete comes after it, in the opposite order of
    the writes.  The requests are made before [doExport] resolves; their
    outcome is not awaited. *)
Theorem doExport_deletes_what_it_wrote u document s :
  ∃ t files rendered,
    trace (snd (doExport W u document s)) = trace s ++ t
    ∧ file_steps t = (Wrote <$> files) ++ rendered ++ (Unlinking <$> reverse files)
    ∧ (length files ≤ 2)%nat
    ∧ (rendered = [] ∨ rendered = [Rendered]).
Proof.
  unfold doExport.
  destruct (proxyWorkspaceFolder W u document) as [folder|] eqn:Hfolder.
  - unfold createWorkspaceProxyServer.
    destruct (proxy_bind W folder) as [port|e] eqn:Hbind.
    + erewrite bind_ok; [|reflexivity]. cbv beta.
      unfold try_finally.
      match goal with
      | |- context [bind (createWorkFile W document) ?k ?s0] =>
        destruct (export_inner_files u document (Some {| port := port |})
                    (Some (proxy_baseUrl document port)) s0)
          as (t & files & rendered & Htr & Hsteps & Hlen & Hrendered);
        change (trace (snd (bind (createWorkFile W document) k s0)) = trace s0 ++ t) in Htr;
        set (run := bind (createWorkFile W document) k s0) in *;
        clearbody run; destruct run as [r s1]
      end.
      simpl in *.
      exists ([EvProxyCreate port] ++ t ++ [EvProxyDispose port]), files, rendered.
      split_and!; [|by rewrite !file_steps_app, Hsteps, app_nil_r|done..].
      rewrite Htr. simpl. by rewrite <- !app_assoc.
    + exists [], [], []. simpl. rewrite app_nil_r. split_and!; [done|done|lia|by left].
  - erewrite bind_ok; [|reflexivity]. cbv beta.
    unfold try_finally.
    match goal with
    | |- context [bind (createWorkFile W document) ?k ?s0] =>
      destruct (export_inner_files u document None None s0)
        as (t & files & rendered & Htr & Hsteps & Hlen & Hrendered);
      change (trace (snd (bind (createWorkFile W document) k s0)) = trace s0 ++ t) in Htr;
      set (run := bind (createWorkFile W document) k s0) in *;
      clearbody run; destruct run as [r s1]
    end.
    simpl in *. by exists t, files, rendered.
Qed.

End FileProofs.

(** ** The renderer call and the config file *)

Section RendererCall.
Context (W : World).

(** X13. [runMarpCli] calls the renderer exactly once, with its own
    arguments.  During the call [CHROME_PATH] holds the [chromePath] setting
    when that is a non-empty text, and otherwise what the variable held on
    entry (the text "undefined" when it was not set).  The call is logged with
    [console.info] before it starts, an error the renderer throws is logged
    with [console.error], and [runMarpCli] itself writes and deletes no file
    and draws no id. *)
Theorem runMarpCli_runs_renderer_once argv s :
  ∃ chrome,
    trace (snd (runMarpCli W argv s)) = trace s ++ [EvMarpCli argv (Some chrome)]
    ∧ (∀ c, cfg_chromePath W = Some c → c ≠ "" → chrome = c)
    ∧ (cfg_chromePath W = None ∨ cfg_chromePath W = Some "" →
       chrome = default "undefined" (env_CHROME_PATH s))
    ∧ fs (snd (runMarpCli W argv s)) = fs s
    ∧ nanoid_calls (snd (runMarpCli W argv s)) = nanoid_calls s
    ∧ console (snd (runMarpCli W argv s))
      = console s
        ++ [LogInfo ("Execute Marp CLI: " +:+ String.concat " " (arg_toString <$> argv))]
        ++ match marpCli W argv with
           | RendererThrows e => [LogError e]
           | Exit _ => []
           end.
Proof.
  rewrite runMarpCli_unfold. cbv zeta.
  exists (default "undefined" (js_or (cfg_chromePath W) (env_CHROME_PATH s))).
  split_and!.
  - by destruct (marpCli W argv).
  - intros c -> Hc. by destruct c.
  - by intros [->| ->].
  - by destruct (marpCli W argv).
  - by destruct (marpCli W argv).
  - destruct (marpCli W argv); simpl; by rewrite <- ?app_assoc.
Qed.

(** X14. The command line that [doExport] hands to [runMarpCli] is an array
    followed by an options object, where [runMarpCli] expects texts: the log
    entry joins the array with commas and shows the object as
    [[object Object]]. *)
Theorem runMarpCli_logs_export_arguments u conf input baseUrl s :
  ∃ rest,
    console (snd (runMarpCli W [ArgArr ["-c"; conf; input; "-o"; fsPath u];
                                ArgOpts baseUrl] s))
    = console s
      ++ LogInfo ("Execute Marp CLI: "
                  +:+ ("-c," +:+ conf +:+ "," +:+ input +:+ ",-o," +:+ fsPath u)
                  +:+ " [object Object]")
         :: rest.
Proof.
  rewrite runMarpCli_unfold. cbv zeta.
  destruct (marpCli W _) as [code|e]; simpl.
  - by exists [].
  - exists [LogError e]. by rewrite <- app_assoc.
Qed.

(** X15. [createConfigFile] returns, and writes a config file, only when no
    remote theme was fetched.  The config file then names the local themes
    among the loaded ones, in the order of [loadStyles]: [themeSet] holds
    their paths and [vscode.themeFiles] one object per theme with its path
    only.  [html] and [extensionAttrs] are members only when the setting is
    [true], and [options.markdown.breaks] follows the [breaks] setting. *)
Theorem createConfigFile_content target s conf s1 :
  createConfigFile W target s = (Ok conf, s1) →
  let promises := loadStyles W (stylesRoot W (uri target)) in
  let themes := theme_path <$> local_themes promises in
  existsb remote_fulfilled promises = false
  ∧ ∃ j,
      fs s1 !! path conf = Some (JsonText j)
      ∧ json_member "themeSet" j = Some (JArray (JString <$> themes))
      ∧ json_member "vscode" j
        = Some (JObject [("themeFiles",
                          JArray ((λ p, JObject [("path", JString p)]) <$> themes))])
      ∧ json_member "html" j
        = (if bool_decide (cfg_enableHtml W = Some true) then Some (JBool true) else None)
      ∧ json_member "extensionAttrs" j
        = (if bool_decide (cfg_enableExtensionAttrs W = Some true)
           then Some (JBool true) else None)
      ∧ json_member "options" j
        = Some (JObject [("markdown",
                          JObject [("breaks",
                                    JBool (if bool_decide (cfg_breaks W = "off") then false
                                           else if bool_decide (cfg_breaks W = "inherit")
                                                then bool_decide
                                                       (preview_breaks W (uri target) = Some true)
                                                else true))])]).
Proof.
  intros Hbuild promises themes.
  destruct (createConfigFile_ok W _ _ _ _ Hbuild) as (o & s0 & Ho & Hw & -> & ->).
  assert (Hlocal : existsb remote_fulfilled promises = false).
  { destruct (existsb remote_fulfilled promises) eqn:Hremote; [|done].
    destruct (marpCoreOptionForCLI_remote W target (bump_nanoid s) Hremote) as [Hthrow _].
    rewrite Ho in Hthrow. discriminate Hthrow. }
  split; [exact Hlocal|].
  destruct (marpCoreOptionForCLI_local W target (bump_nanoid s) Hlocal)
    as (o' & s' & Ho' & Hset & Hfiles & _ & _ & _ & Hhtml & Hattrs & Hbreaks).
  rewrite Ho in Ho'. injection Ho' as <- <-.
  fold promises in Hset. fold themes in Hset.
  exists (JSON_stringify o). simpl.
  split; [apply lookup_insert_eq|].
  unfold JSON_stringify. simpl. rewrite Hset, Hhtml, Hattrs, Hbreaks.
  assert (Hobjects : (λ w : WorkFile, JObject [("path", JString (path w))])
                       <$> vscode_themeFiles o
                     = (λ p : string, JObject [("path", JString p)]) <$> themes).
  { rewrite <- Hset, <- Hfiles, <- list_fmap_compose. done. }
  rewrite Hobjects. unfold breaks.
  destruct (cfg_enableHtml W) as [[]|], (cfg_enableExtensionAttrs W) as [[]|]; simpl;
    split_and!; try done;
    repeat case_bool_decide; try done;
    by destruct (preview_breaks W (uri target)) as [[]|].
Qed.

End RendererCall.

Lemma createConfigFile_content_witness :
  let e := JsErrorObj "Error" "Request failed with status code 404" in
  let W0 := Sample.world [] [] (λ _, None) None "linux"
              [Fulfilled Sample.local_theme; Rejected e] (Exit 0) in
  let s := Sample.initial None in
  let j := JSON_stringify
             {| allowLocalFiles := true; html := None; extensionAttrs := None;
                options_markdown_breaks := true; themeSet := ["/work/themes/b.css"];
                vscode_themeFiles := [{| path := "/work/themes/b.css"; cleanup := ret tt |}] |} in
  let conf := {| path := "/tmp/.marp-vscode-cli-conf-id0.json";
                 cleanup := config_cleanup W0 "/tmp/.marp-vscode-cli-conf-id0.json"
                              [{| path := "/work/themes/b.css"; cleanup := ret tt |}] |} in
  let s1 := {| fs := {["/tmp/.marp-vscode-cli-conf-id0.json" := JsonText j]};
               env_CHROME_PATH := None; nanoid_calls := 1;
               console := [LogError e];
               trace := [EvWorkFile "/work/themes/b.css";
                         EvWrite "/tmp/.marp-vscode-cli-conf-id0.json" (JsonText j) true;
                         EvWorkFile "/tmp/.marp-vscode-cli-conf-id0.json"] |} in
  createConfigFile W0 Sample.deck s = (Ok conf, s1)
  ∧ json_member "themeSet" j = Some (JArray [JString "/work/themes/b.css"])
  ∧ existsb remote_fulfilled (loadStyles W0 (stylesRoot W0 (uri Sample.deck))) = false.
Proof.
  intros e W0 s j conf s1.
  assert (Hbuild : createConfigFile W0 Sample.deck s = (Ok conf, s1)) by reflexivity.
  split; [exact Hbuild|]. split; [reflexivity|].
  exact (proj1 (createConfigFile_content W0 Sample.deck s conf s1 Hbuild)).
Defined.
